(** * Chat backend: a shallow embedding of [db.ts], [ai.ts] and [index.ts]

    The development follows the three backend files:
    - [Js]  : the JavaScript string and array built-ins the handlers call;
    - [Db]  : the relational store of [db.ts] (tables, constraints of the
              schema of [initDatabase], and the repository functions);
    - [Ai]  : the prompt construction of [generateAIResponse];
    - [Api] : the request handlers of [index.ts].

    Asynchronous functions are computations over an explicit [World]
    (the store, a statement counter and the log of prompts sent to the
    provider) that either resolve to a value or reject with an error.
    Everything the code cannot control is read from an environment [Env]:
    whether the store is reachable, the value of [CURRENT_TIMESTAMP], the
    order in which the store returns rows that compare equal under an
    [ORDER BY], and the answer of the text-generation provider. *)

From Stdlib Require Import ZArith List String Ascii Bool Lia.
From Stdlib Require Import Sorting.Sorted Sorting.Permutation.
Import ListNotations.

Local Open Scope string_scope.
Local Open Scope list_scope.
Local Open Scope Z_scope.

(* ================================================================== *)
(** ** JavaScript built-ins *)

Module Js.

(** Strings are sequences of code units; the embedding uses the 8-bit
    characters of [string], that is code units below 256. *)

(** White space and line terminators removed by [String.prototype.trim],
    among the code units below 256: TAB, LF, VT, FF, CR, SP and NBSP. *)
Definition is_white_space (c : ascii) : bool :=
  let n := nat_of_ascii c in
  ((9 <=? n) && (n <=? 13) || (n =? 32) || (n =? 160))%nat.

Fixpoint trimStart (s : string) : string :=
  match s with
  | EmptyString => EmptyString
  | String c s' => if is_white_space c then trimStart s' else s
  end.

Fixpoint trimEnd (s : string) : string :=
  match s with
  | EmptyString => EmptyString
  | String c s' =>
      match trimEnd s' with
      | EmptyString => if is_white_space c then EmptyString else String c EmptyString
      | r => String c r
      end
  end.

(** [s.trim()] *)
Definition trim (s : string) : string := trimEnd (trimStart s).

(** Lower-case mapping of one code unit below 256: A-Z, and the Latin-1
    capitals U+00C0..U+00DE except the multiplication sign U+00D7. In
    this range the mapping is one code unit to one code unit; beyond it
    [toLowerCase] can lengthen a string. *)
Definition lower_char (c : ascii) : ascii :=
  let n := nat_of_ascii c in
  if ((65 <=? n) && (n <=? 90)
      || (192 <=? n) && (n <=? 222) && negb (n =? 215))%nat
  then ascii_of_nat (n + 32) else c.

(** [s.toLowerCase()] *)
Fixpoint toLowerCase (s : string) : string :=
  match s with
  | EmptyString => EmptyString
  | String c s' => String (lower_char c) (toLowerCase s')
  end.

(** [s.substring(0, n)] *)
Definition substring_0 (n : nat) (s : string) : string := String.substring 0 n s.

(** Truthiness of a string value: only the empty string is falsy. *)
Definition truthy (s : string) : bool := negb (s =? "")%string.

(** [arr.slice(0, -1)]: every element but the last. *)
Definition slice_0_m1 {A : Type} (arr : list A) : list A := removelast arr.

End Js.

(* ================================================================== *)
(** ** The world the backend runs in *)

(** Roles a stored message can have ([Message.role] of [db.ts]). *)
Inductive Role : Type := RoleUser | RoleAssistant.

(** One entry of the prompt handed to [generateText]. *)
Inductive PromptRole : Type := PromptSystem | PromptOf (r : Role).

Record PromptMessage : Type := mkPrompt {
  p_role : PromptRole;
  p_content : string
}.

(** Errors raised by the store for one statement. *)
Inductive SqlError : Type :=
| StoreUnavailable       (* the statement did not reach the store *)
| InvalidParameter       (* a parameter is not a value of its column type *)
| ValueTooLong           (* VARCHAR(n) overflow *)
| SequenceExhausted      (* SERIAL ran past the INTEGER range *)
| UniqueViolation        (* UNIQUE *)
| ForeignKeyViolation.   (* REFERENCES *)

(** What an awaited call can throw. *)
Inductive Exn : Type :=
| SqlFailure (e : SqlError)
| ProviderFailure.

Record User : Type := mkUser {
  u_id : Z;
  u_username : string;
  u_created_at : Z
}.

Record Session : Type := mkSession {
  s_id : Z;
  s_user_id : option Z;      (* nullable foreign key *)
  s_title : string;
  s_created_at : Z
}.

Record Message : Type := mkMessage {
  m_id : Z;
  m_session_id : Z;
  m_role : Role;
  m_content : string;
  m_created_at : Z
}.

(** The three tables in the state [initDatabase] leaves them in when they
    did not exist, each with the last value handed out by the sequence
    behind its SERIAL key. *)
Record Database : Type := mkDatabase {
  users : list User;
  sessions : list Session;
  messages : list Message;
  users_seq : Z;
  sessions_seq : Z;
  messages_seq : Z
}.

Definition initDatabase : Database := mkDatabase [] [] [] 0 0 0.

(** [tick] counts the statements issued so far and indexes the
    environment; [sent] logs the prompts handed to [generateText], oldest
    first, one for each call of it. The requests the SDK makes of one
    call, its retries included, are below this log. *)
Record World : Type := mkWorld {
  db : Database;
  tick : nat;
  sent : list (list PromptMessage)
}.

Record Env : Type := mkEnv {
  (** does the [n]-th statement reach the store? *)
  store_up : nat -> bool;
  (** [CURRENT_TIMESTAMP] of the [n]-th statement, in microseconds *)
  clock : nat -> Z;
  (** rank, for the [n]-th statement, of the row with a given id among
      rows that compare equal under the statement's [ORDER BY] *)
  tie_rank : nat -> Z -> Z;
  (** outcome of the [k]-th provider call on a prompt; [None] when it throws *)
  complete : nat -> list PromptMessage -> option string
}.

(** A promise that has settled. *)
Inductive Settled (A : Type) : Type :=
| Resolved (a : A)
| Rejected (e : Exn).
Arguments Resolved {A} a.
Arguments Rejected {A} e.

(** An asynchronous computation. *)
Definition Async (A : Type) : Type := World -> Settled A * World.

Definition ret {A : Type} (a : A) : Async A := fun w => (Resolved a, w).

Definition bind {A B : Type} (m : Async A) (f : A -> Async B) : Async B :=
  fun w =>
    match m w with
    | (Resolved a, w') => f a w'
    | (Rejected e, w') => (Rejected e, w')
    end.

Notation "x <- m ;; k" := (bind m (fun x => k))
  (at level 61, m at next level, right associativity).
Notation "'await' m ;; k" := (bind m (fun _ => k))
  (at level 61, m at next level, right associativity).

(* ================================================================== *)
(** ** db.ts: the store and the repository functions *)

Module Db.

(** *** Column types of the schema *)

(** [INTEGER]: a parameter outside the 32-bit range is refused. *)
Definition int4 (z : Z) : bool := (-2147483648 <=? z) && (z <=? 2147483647).

Definition int4_or_null (o : option Z) : bool :=
  match o with
  | None => true
  | Some z => int4 z
  end.

(** Text parameters cannot hold the code unit 0. *)
Fixpoint text (s : string) : bool :=
  match s with
  | EmptyString => true
  | String c s' => negb (nat_of_ascii c =? 0)%nat && text s'
  end.

Fixpoint all_spaces (s : string) : bool :=
  match s with
  | EmptyString => true
  | String c s' => (nat_of_ascii c =? 32)%nat && all_spaces s'
  end.

(** Storing into a [VARCHAR(n)] column: a longer value is an error unless
    the excess is spaces only, which are cut off. The limit counts
    characters; a code unit below 256 is one character, so here the
    count is the string's length. *)
Definition varchar (n : nat) (s : string) : option string :=
  if (String.length s <=? n)%nat then Some s
  else if all_spaces (String.substring n (String.length s - n) s)
       then Some (String.substring 0 n s)
       else None.

(** Last value a SERIAL sequence can hand out. *)
Definition serial_max : Z := 2147483647.

(** *** ORDER BY *)

Fixpoint insert_row {A : Type} (le : A -> A -> bool) (x : A) (l : list A) : list A :=
  match l with
  | [] => [x]
  | y :: t => if le x y then x :: l else y :: insert_row le x t
  end.

Definition order_by {A : Type} (le : A -> A -> bool) (rows : list A) : list A :=
  fold_right (insert_row le) [] rows.

(** [ORDER BY created_at ASC] on messages: the creation time decides;
    among equal creation times the order is the store's choice [rank]. *)
Definition created_at_asc (rank : Z -> Z) (a b : Message) : bool :=
  (m_created_at a <? m_created_at b)
  || (m_created_at a =? m_created_at b) && (rank (m_id a) <=? rank (m_id b)).

(** [ORDER BY created_at DESC] on sessions. *)
Definition created_at_desc (rank : Z -> Z) (a b : Session) : bool :=
  (s_created_at b <? s_created_at a)
  || (s_created_at a =? s_created_at b) && (rank (s_id a) <=? rank (s_id b)).

(** *** The statements, as functions on the tables

    Each takes the statement's CURRENT_TIMESTAMP where it needs it and
    returns the rows or the error, with the tables it leaves behind. *)

Definition Stmt (A : Type) : Type := Database -> (SqlError + A) * Database.

(** [SELECT id, username, created_at FROM users WHERE username = $1] *)
Definition select_user (username : string) : Stmt (list User) :=
  fun d => (inr (filter (fun u => (u_username u =? username)%string) (users d)), d).

(** [INSERT INTO users (username) VALUES ($1) RETURNING ...] *)
Definition insert_user (now : Z) (username : string) : Stmt User :=
  fun d =>
    match varchar 50 username with
    | None => (inl ValueTooLong, d)
    | Some name =>
        if serial_max <=? users_seq d then (inl SequenceExhausted, d)
        else
          let id := users_seq d + 1 in
          if existsb (fun u => (u_username u =? name)%string) (users d)
          then (inl UniqueViolation,
                mkDatabase (users d) (sessions d) (messages d)
                           id (sessions_seq d) (messages_seq d))
          else
            let row := mkUser id name now in
            (inr row,
             mkDatabase (users d ++ [row]) (sessions d) (messages d)
                        id (sessions_seq d) (messages_seq d))
    end.

(** Does the foreign key [v] refer to a row of the parent table? NULL
    refers to nothing and passes. *)
Definition references_user (v : option Z) (d : Database) : bool :=
  match v with
  | None => true
  | Some id => existsb (fun u => u_id u =? id) (users d)
  end.

Definition references_session (id : Z) (d : Database) : bool :=
  existsb (fun s => s_id s =? id) (sessions d).

(** [INSERT INTO sessions (user_id, title) VALUES ($1, $2) RETURNING ...] *)
Definition insert_session (now : Z) (userId : option Z) (title : string) : Stmt Session :=
  fun d =>
    match varchar 100 title with
    | None => (inl ValueTooLong, d)
    | Some t =>
        if serial_max <=? sessions_seq d then (inl SequenceExhausted, d)
        else
          let id := sessions_seq d + 1 in
          if references_user userId d
          then
            let row := mkSession id userId t now in
            (inr row,
             mkDatabase (users d) (sessions d ++ [row]) (messages d)
                        (users_seq d) id (messages_seq d))
          else (inl ForeignKeyViolation,
                mkDatabase (users d) (sessions d) (messages d)
                           (users_seq d) id (messages_seq d))
    end.

(** [SELECT ... FROM sessions WHERE user_id = $1 ORDER BY created_at DESC] *)
Definition select_sessions (rank : Z -> Z) (userId : Z) : Stmt (list Session) :=
  fun d =>
    (inr (order_by (created_at_desc rank)
            (filter (fun s => match s_user_id s with
                              | Some u => u =? userId
                              | None => false
                              end) (sessions d))), d).

Definition set_title (sessionId : Z) (title : string) (s : Session) : Session :=
  if s_id s =? sessionId
  then mkSession (s_id s) (s_user_id s) title (s_created_at s)
  else s.

(** [UPDATE sessions SET title = $1 WHERE id = $2] *)
Definition update_title (sessionId : Z) (title : string) : Stmt unit :=
  fun d =>
    match varchar 100 title with
    | None => (inl ValueTooLong, d)
    | Some t =>
        (inr tt,
         mkDatabase (users d) (map (set_title sessionId t) (sessions d)) (messages d)
                    (users_seq d) (sessions_seq d) (messages_seq d))
    end.

(** [DELETE FROM sessions WHERE id = $1], with the [ON DELETE CASCADE] of
    [messages.session_id]: the messages that refer to a deleted row go
    with it, in the same statement. *)
Definition delete_session (sessionId : Z) : Stmt unit :=
  fun d =>
    let deleted := filter (fun s => s_id s =? sessionId) (sessions d) in
    (inr tt,
     mkDatabase (users d)
                (filter (fun s => negb (s_id s =? sessionId)) (sessions d))
                (filter (fun m => negb (existsb (fun s => s_id s =? m_session_id m) deleted))
                        (messages d))
                (users_seq d) (sessions_seq d) (messages_seq d)).

(** [INSERT INTO messages (session_id, role, content) VALUES ($1, $2, $3)
    RETURNING ...] *)
Definition insert_message (now : Z) (sessionId : Z) (role : Role) (content : string)
  : Stmt Message :=
  fun d =>
    if serial_max <=? messages_seq d then (inl SequenceExhausted, d)
    else
      let id := messages_seq d + 1 in
      if references_session sessionId d
      then
        let row := mkMessage id sessionId role content now in
        (inr row,
         mkDatabase (users d) (sessions d) (messages d ++ [row])
                    (users_seq d) (sessions_seq d) id)
      else (inl ForeignKeyViolation,
            mkDatabase (users d) (sessions d) (messages d)
                       (users_seq d) (sessions_seq d) id).

(** The rows of [messages] owned by a session. *)
Definition of_session (sessionId : Z) (ms : list Message) : list Message :=
  filter (fun m => m_session_id m =? sessionId) ms.

(** [SELECT ... FROM messages WHERE session_id = $1 ORDER BY created_at ASC] *)
Definition select_messages (rank : Z -> Z) (sessionId : Z) : Stmt (list Message) :=
  fun d => (inr (order_by (created_at_asc rank) (of_session sessionId (messages d))), d).

(** [DELETE FROM messages WHERE session_id = $1] *)
Definition delete_messages (sessionId : Z) : Stmt unit :=
  fun d =>
    (inr tt,
     mkDatabase (users d) (sessions d)
                (filter (fun m => negb (m_session_id m =? sessionId)) (messages d))
                (users_seq d) (sessions_seq d) (messages_seq d)).

Section Repository.

Variable env : Env.

(** One round trip of the [sql] tag: the statement is lost when the store
    is unreachable, refused when a parameter does not have its column's
    type, and otherwise runs as a whole. *)
Definition sql {A : Type} (params_ok : bool) (run : Z -> (Z -> Z) -> Stmt A) : Async A :=
  fun w =>
    let n := tick w in
    if negb (store_up env n)
    then (Rejected (SqlFailure StoreUnavailable), mkWorld (db w) (S n) (sent w))
    else if negb params_ok
    then (Rejected (SqlFailure InvalidParameter), mkWorld (db w) (S n) (sent w))
    else
      match run (clock env n) (tie_rank env n) (db w) with
      | (inl e, d) => (Rejected (SqlFailure e), mkWorld d (S n) (sent w))
      | (inr a, d) => (Resolved a, mkWorld d (S n) (sent w))
      end.

Definition getOrCreateUser (username : string) : Async User :=
  result <- sql (text username) (fun _ _ => select_user username) ;;
  match result with
  | [] =>
      row <- sql (text username) (fun now _ => insert_user now username) ;;
      ret row
  | row :: _ => ret row
  end.

(** [title] is [None] when the caller leaves the argument out. *)
Definition createSession (userId : option Z) (title : option string) : Async Session :=
  let title := match title with Some t => t | None => "New Chat" end in
  sql (int4_or_null userId && text title)
      (fun now _ => insert_session now userId title).

Definition getUserSessions (userId : Z) : Async (list Session) :=
  sql (int4 userId) (fun _ rank => select_sessions rank userId).

Definition updateSessionTitle (sessionId : Z) (title : string) : Async unit :=
  sql (text title && int4 sessionId) (fun _ _ => update_title sessionId title).

Definition deleteSession (sessionId : Z) : Async unit :=
  sql (int4 sessionId) (fun _ _ => delete_session sessionId).

Definition saveMessage (sessionId : Z) (role : Role) (content : string) : Async Message :=
  sql (int4 sessionId && text content)
      (fun now _ => insert_message now sessionId role content).

Definition getSessionMessages (sessionId : Z) : Async (list Message) :=
  sql (int4 sessionId) (fun _ rank => select_messages rank sessionId).

Definition clearSessionMessages (sessionId : Z) : Async unit :=
  sql (int4 sessionId) (fun _ _ => delete_messages sessionId).

End Repository.

End Db.

(* ================================================================== *)
(** ** ai.ts: the provider call *)

Module Ai.

Definition system_content : string :=
  "You are a helpful, friendly AI assistant. Keep responses concise.".

(** The [messages] array of [generateAIResponse]. *)
Definition prompt_of (userMessage : string) (history : list Message) : list PromptMessage :=
  mkPrompt PromptSystem system_content
  :: map (fun msg => mkPrompt (PromptOf (m_role msg)) (m_content msg)) history
  ++ [mkPrompt (PromptOf RoleUser) userMessage].

Section Provider.

Variable env : Env.

Definition generateAIResponse (userMessage : string) (history : list Message)
  : Async string :=
  fun w =>
    let messages := prompt_of userMessage history in
    let w' := mkWorld (db w) (tick w) (sent w ++ [messages]) in
    match complete env (List.length (sent w)) messages with
    | Some text => (Resolved text, w')
    | None => (Rejected ProviderFailure, w')
    end.

End Provider.

End Ai.

(* ================================================================== *)
(** ** index.ts: the request handlers *)

Module Api.

(** The JSON envelope of a response. *)
Inductive Response : Type :=
| Failure (error : string)            (* { success: false, error } *)
| LoginOk (user : User)               (* { success: true, user } *)
| SessionsOk (sessions : list Session)
| SessionOk (session : Session)
| Success                             (* { success: true } *)
| MessagesOk (messages : list Message)
| ChatOk (response : Message).        (* { success: true, response } *)

Definition Handler : Type := World -> Response * World.

(** [try { ... } catch (error) { res.json({ success: false, error }) }] *)
Definition try_catch (body : Async Response) (error : string) : Handler :=
  fun w =>
    match body w with
    | (Resolved r, w') => (r, w')
    | (Rejected _, w') => (Failure error, w')
    end.

Section Handlers.

Variable env : Env.

(** A handler takes what the route hands it: a path parameter once
    [parseInt] has made an integer of it, and the fields of the JSON
    body, each of them absent ([None]) or a string. *)

(** POST /api/auth/login *)
Definition login (username : option string) : Handler :=
  try_catch
    match username with
    | None => ret (Failure "Username must be at least 2 characters")
    | Some username =>
        if negb (Js.truthy username) || (String.length (Js.trim username) <? 2)%nat
        then ret (Failure "Username must be at least 2 characters")
        else
          user <- Db.getOrCreateUser env (Js.toLowerCase (Js.trim username)) ;;
          ret (LoginOk user)
    end
    "Failed to login".

(** GET /api/sessions/:userId *)
Definition list_sessions (userId : Z) : Handler :=
  try_catch
    (sessions <- Db.getUserSessions env userId ;;
     ret (SessionsOk sessions))
    "Failed to fetch sessions".

(** [title || 'New Chat'] *)
Definition title_or_default (title : option string) : string :=
  match title with
  | Some t => if Js.truthy t then t else "New Chat"
  | None => "New Chat"
  end.

(** POST /api/sessions *)
Definition create_session (userId : option Z) (title : option string) : Handler :=
  try_catch
    (session <- Db.createSession env userId (Some (title_or_default title)) ;;
     ret (SessionOk session))
    "Failed to create session".

(** DELETE /api/sessions/:sessionId *)
Definition delete_session (sessionId : Z) : Handler :=
  try_catch
    (await Db.deleteSession env sessionId ;;
     ret Success)
    "Failed to delete session".

(** GET /api/sessions/:sessionId/messages *)
Definition list_messages (sessionId : Z) : Handler :=
  try_catch
    (messages <- Db.getSessionMessages env sessionId ;;
     ret (MessagesOk messages))
    "Failed to fetch messages".

(** POST /api/sessions/:sessionId/chat *)
Definition chat (sessionId : Z) (message : option string) : Handler :=
  try_catch
    match message with
    | None => ret (Failure "Message cannot be empty")
    | Some message =>
        if negb (Js.truthy (Js.trim message))
        then ret (Failure "Message cannot be empty")
        else
          await Db.saveMessage env sessionId RoleUser message ;;
          history <- Db.getSessionMessages env sessionId ;;
          aiResponse <- Ai.generateAIResponse env message (Js.slice_0_m1 history) ;;
          savedResponse <- Db.saveMessage env sessionId RoleAssistant aiResponse ;;
          await (if (List.length history <=? 1)%nat
                 then Db.updateSessionTitle env sessionId (Js.substring_0 50 message)
                 else ret tt) ;;
          ret (ChatOk savedResponse)
    end
    "Failed to process message".

(** DELETE /api/sessions/:sessionId/messages *)
Definition clear_messages (sessionId : Z) : Handler :=
  try_catch
    (await Db.clearSessionMessages env sessionId ;;
     ret Success)
    "Failed to clear messages".

End Handlers.

End Api.

(* ================================================================== *)
(** ** The server as a whole, and the vocabulary of the properties *)

(** The routes of [index.ts] that reach the store. *)
Inductive Request : Type :=
| PostLogin (username : option string)
| GetSessions (userId : Z)
| PostSession (userId : option Z) (title : option string)
| DeleteSession (sessionId : Z)
| GetMessages (sessionId : Z)
| PostChat (sessionId : Z) (message : option string)
| DeleteMessages (sessionId : Z).

Definition handle (env : Env) (r : Request) : Api.Handler :=
  match r with
  | PostLogin username => Api.login env username
  | GetSessions userId => Api.list_sessions env userId
  | PostSession userId title => Api.create_session env userId title
  | DeleteSession sessionId => Api.delete_session env sessionId
  | GetMessages sessionId => Api.list_messages env sessionId
  | PostChat sessionId message => Api.chat env sessionId message
  | DeleteMessages sessionId => Api.clear_messages env sessionId
  end.

(** The world when the server starts listening, on empty tables. *)
Definition boot : World := mkWorld initDatabase 0 [].

(** Requests served one after the other. *)
Fixpoint serve (env : Env) (rs : list Request) (w : World) : World :=
  match rs with
  | [] => w
  | r :: rs' => serve env rs' (snd (handle env r w))
  end.

(** A run of appends to any sessions, in the order the store sees them;
    an append the store refuses is skipped. *)
Fixpoint appends (env : Env) (ops : list (Z * Role * string)) (w : World) : World :=
  match ops with
  | [] => w
  | (sessionId, role, content) :: ops' =>
      appends env ops' (snd (Db.saveMessage env sessionId role content w))
  end.

(** The constraints of the schema, as a check on the tables. *)
Fixpoint distinct (l : list string) : bool :=
  match l with
  | [] => true
  | x :: t => negb (existsb (String.eqb x) t) && distinct t
  end.

Definition integrity (d : Database) : bool :=
  distinct (map u_username (users d))
  && forallb (fun s => Db.references_user (s_user_id s) d) (sessions d)
  && forallb (fun m => Db.references_session (m_session_id m) d) (messages d).

(** An asynchronous computation keeps the constraints. *)
Definition keeps_integrity {A : Type} (m : Async A) : Prop :=
  forall w, integrity (db w) = true -> integrity (db (snd (m w))) = true.

(** The last code unit of a string. *)
Fixpoint last_char (s : string) : option ascii :=
  match s with
  | EmptyString => None
  | String c s' =>
      match s' with
      | EmptyString => Some c
      | String _ _ => last_char s'
      end
  end.

(** Non-decreasing creation time. *)
Definition chronological (l : list Message) : Prop :=
  StronglySorted (fun a b => m_created_at a <= m_created_at b) l.

(** Creation time first, assigned id among equal creation times. *)
Definition creation_then_id (a b : Message) : Prop :=
  m_created_at a < m_created_at b
  \/ (m_created_at a = m_created_at b /\ m_id a <= m_id b).

(** The number of messages a session holds. *)
Definition message_count (sessionId : Z) (w : World) : nat :=
  List.length (Db.of_session sessionId (messages (db w))).

Definition is_chat_ok (r : Api.Response) : bool :=
  match r with
  | Api.ChatOk _ => true
  | _ => false
  end.

(** *** Environments and worlds used to exercise the code *)

(** Everything works: the store is reachable, the clock advances with
    every statement, ties keep id order, the provider answers. *)
Definition fair_weather : Env :=
  mkEnv (fun _ => true) (fun n => 1000 + Z.of_nat n) (fun _ id => id)
        (fun _ _ => Some "Hi there").

(** The provider throws on every call. *)
Definition provider_down : Env :=
  mkEnv (fun _ => true) (fun n => 1000 + Z.of_nat n) (fun _ id => id)
        (fun _ _ => None).

(** The store is unreachable for the statement with number 6 only. *)
Definition store_blip : Env :=
  mkEnv (fun n => negb (n =? 6)%nat) (fun n => 1000 + Z.of_nat n) (fun _ id => id)
        (fun _ _ => Some "Hi there").

(** Every statement sees the same [CURRENT_TIMESTAMP], and the store
    returns rows with equal sort keys latest first. *)
Definition coarse_clock : Env :=
  mkEnv (fun _ => true) (fun _ => 1000) (fun _ id => - id)
        (fun _ _ => Some "Hi there").

(** The clock is set back before the statement with number 7. *)
Definition clock_set_back : Env :=
  mkEnv (fun _ => true)
        (fun n => if (n <? 7)%nat then 1000 + Z.of_nat n else 500 + Z.of_nat n)
        (fun _ id => id)
        (fun _ _ => Some "Hi there").

(** alice has logged in (statements 0 and 1) and opened a session
    (statement 2) that holds no message yet. *)
Definition new_session (env : Env) : World :=
  serve env [PostLogin (Some "alice"); PostSession (Some 1) None] boot.

(** ... and has exchanged one turn (statements 3 to 6). *)
Definition after_hello (env : Env) : World :=
  serve env [PostChat 1 (Some "Hello")] (new_session env).

(* ================================================================== *)
(** ** Invariants of a running server *)

(** A property of worlds is stable when no step of the backend breaks
    it: logging a prompt, a statement that is lost or refused (only the
    statement counter moves), and each of the writing statements of
    [db.ts], run at the time and with the outcome the store gives it. *)
Record Stable (env : Env) (I : World -> Prop) : Prop := mkStable {
  stable_sent : forall w prompts, I w -> I (mkWorld (db w) (tick w) prompts);
  stable_tick : forall w, I w -> I (mkWorld (db w) (S (tick w)) (sent w));
  stable_insert_user : forall w username, I w ->
    I (mkWorld (snd (Db.insert_user (clock env (tick w)) username (db w)))
               (S (tick w)) (sent w));
  stable_insert_session : forall w userId title, I w ->
    I (mkWorld (snd (Db.insert_session (clock env (tick w)) userId title (db w)))
               (S (tick w)) (sent w));
  stable_update_title : forall w sessionId title, I w ->
    I (mkWorld (snd (Db.update_title sessionId title (db w))) (S (tick w)) (sent w));
  stable_delete_session : forall w sessionId, I w ->
    I (mkWorld (snd (Db.delete_session sessionId (db w))) (S (tick w)) (sent w));
  stable_insert_message : forall w sessionId role content, I w ->
    I (mkWorld (snd (Db.insert_message (clock env (tick w)) sessionId role content (db w)))
               (S (tick w)) (sent w));
  stable_delete_messages : forall w sessionId, I w ->
    I (mkWorld (snd (Db.delete_messages sessionId (db w))) (S (tick w)) (sent w))
}.

(** An asynchronous computation keeps a property of worlds. *)
Definition preserves {A : Type} (I : World -> Prop) (m : Async A) : Prop :=
  forall w, I w -> I (snd (m w)).

(** Keys handed out by a sequence: increasing down the table, none
    beyond the sequence's last value. *)
Definition ascending (ids : list Z) (last : Z) : Prop :=
  StronglySorted Z.lt ids /\ Forall (fun id => id <= last) ids.

(** PRIMARY KEY and SERIAL of the three tables. *)
Definition keyed (w : World) : Prop :=
  ascending (map u_id (users (db w))) (users_seq (db w))
  /\ ascending (map s_id (sessions (db w))) (sessions_seq (db w))
  /\ ascending (map m_id (messages (db w))) (messages_seq (db w)).

(** VARCHAR(50) of [users.username] and VARCHAR(100) of [sessions.title]. *)
Definition sized (w : World) : Prop :=
  Forall (fun u => (String.length (u_username u) <= 50)%nat) (users (db w))
  /\ Forall (fun s => (String.length (s_title s) <= 100)%nat) (sessions (db w)).

(** A clock that moves forward between any two statements. *)
Definition ticking (env : Env) : Prop :=
  forall n, clock env n < clock env (S n).

(** Creation times increase down a table and lie before [now]. *)
Definition dated (times : list Z) (now : Z) : Prop :=
  StronglySorted Z.lt times /\ Forall (fun t => t < now) times.

(** Under a ticking clock: rows were created in table order, before the
    present statement. *)
Definition timed (env : Env) (w : World) : Prop :=
  dated (map s_created_at (sessions (db w))) (clock env (tick w))
  /\ dated (map m_created_at (messages (db w))) (clock env (tick w)).

(** A session id that is not in use and that the sequence has passed. *)
Definition retired (sessionId : Z) (w : World) : Prop :=
  Db.references_session sessionId (db w) = false
  /\ sessionId <= sessions_seq (db w).

(** The rows of [sessions] owned by a user. *)
Definition of_user (userId : Z) (ss : list Session) : list Session :=
  filter (fun s => match s_user_id s with
                   | Some u => u =? userId
                   | None => false
                   end) ss.

(** Non-increasing creation time. *)
Definition newest_first (l : list Session) : Prop :=
  StronglySorted (fun a b => s_created_at b <= s_created_at a) l.

Definition is_failure (r : Api.Response) : bool :=
  match r with
  | Api.Failure _ => true
  | _ => false
  end.

(* ================================================================== *)
(** * Properties *)

(** ** Stepping through asynchronous code *)

Section Stepping.

Variable env : Env.

Lemma sql_resolved {A : Type} (ok : bool) (run : Z -> (Z -> Z) -> Db.Stmt A) w a w' :
  Db.sql env ok run w = (Resolved a, w') ->
  store_up env (tick w) = true /\ ok = true /\
  exists d, run (clock env (tick w)) (tie_rank env (tick w)) (db w) = (inr a, d)
            /\ w' = mkWorld d (S (tick w)) (sent w).
Proof.
  unfold Db.sql. intros H.
  destruct (store_up env (tick w)); simpl in H; [|discriminate].
  destruct ok; simpl in H; [|discriminate].
  destruct (run _ _ _) as [[e|a'] d]; inversion H; subst.
  repeat split; eauto.
Qed.

Lemma sql_rejected {A : Type} (ok : bool) (run : Z -> (Z -> Z) -> Db.Stmt A) w e w' :
  Db.sql env ok run w = (Rejected e, w') ->
  tick w' = S (tick w) /\ sent w' = sent w /\
  (db w' = db w \/
   exists se, run (clock env (tick w)) (tie_rank env (tick w)) (db w) = (inl se, db w')).
Proof.
  unfold Db.sql. intros H.
  destruct (store_up env (tick w)); simpl in H;
    [|inversion H; subst; simpl; auto].
  destruct ok; simpl in H; [|inversion H; subst; simpl; auto].
  destruct (run _ _ _) as [[se|a'] d] eqn:E; inversion H; subst; simpl.
  repeat split; eauto.
Qed.

(** A statement never touches the prompt log and counts as one tick. *)
Lemma sql_frame {A : Type} (ok : bool) (run : Z -> (Z -> Z) -> Db.Stmt A) w :
  sent (snd (Db.sql env ok run w)) = sent w
  /\ tick (snd (Db.sql env ok run w)) = S (tick w).
Proof.
  unfold Db.sql.
  destruct (store_up env (tick w)); simpl; auto.
  destruct ok; simpl; auto.
  destruct (run _ _ _) as [[se|a'] d]; simpl; auto.
Qed.

End Stepping.

(** ** Facts about the column types and the JavaScript helpers *)

Lemma substring_0_length (n : nat) (s : string) :
  (String.length (Js.substring_0 n s) <= n)%nat.
Proof.
  unfold Js.substring_0. revert s.
  induction n as [|n IH]; intros [|c s]; simpl; try lia.
  specialize (IH s). lia.
Qed.

Lemma varchar_fits (n : nat) (s : string) :
  (String.length s <= n)%nat -> Db.varchar n s = Some s.
Proof.
  intros H. unfold Db.varchar.
  destruct (Nat.leb_spec (String.length s) n); [reflexivity | lia].
Qed.

Lemma text_substring_0 (n : nat) (s : string) :
  Db.text s = true -> Db.text (Js.substring_0 n s) = true.
Proof.
  unfold Js.substring_0. revert s.
  induction n as [|n IH]; intros [|c s]; simpl; auto.
  intros H. apply andb_true_iff in H as [Hc Hs].
  rewrite Hc. simpl. auto.
Qed.

(** A value that does not end in a space is stored in a [VARCHAR]
    column as it is, or refused. *)

Lemma last_char_none (s : string) : last_char s = None -> s = "".
Proof.
  induction s as [|c s IH]; [reflexivity|]. simpl.
  destruct s; [discriminate|]. intros H. apply IH in H. discriminate.
Qed.

Lemma all_spaces_last (s : string) (c : ascii) :
  Db.all_spaces s = true -> last_char s = Some c -> nat_of_ascii c = 32%nat.
Proof.
  induction s as [|a s IH]; [discriminate|].
  simpl. intros H Hl. apply andb_true_iff in H as [Ha Hs].
  destruct s.
  - inversion Hl; subst. apply Nat.eqb_eq. exact Ha.
  - apply IH; assumption.
Qed.

Lemma substring_all (s : string) : String.substring 0 (String.length s) s = s.
Proof. induction s as [|c s IH]; simpl; congruence. Qed.

Lemma substring_suffix_last (n : nat) (s : string) :
  (n < String.length s)%nat ->
  last_char (String.substring n (String.length s - n) s) = last_char s.
Proof.
  revert s. induction n as [|n IH]; intros s Hn.
  - rewrite Nat.sub_0_r, substring_all. reflexivity.
  - destruct s as [|c s]; [simpl in Hn; lia|].
    simpl in Hn. change (String.length (String c s) - S n)%nat
      with (String.length s - n)%nat.
    simpl String.substring. rewrite IH by lia.
    destruct s; [simpl in Hn; lia | reflexivity].
Qed.

Lemma varchar_unpadded (n : nat) (s t : string) :
  (forall c, last_char s = Some c -> nat_of_ascii c <> 32%nat) ->
  Db.varchar n s = Some t -> t = s.
Proof.
  intros Hlast. unfold Db.varchar.
  destruct (Nat.leb_spec (String.length s) n) as [Hle|Hgt]; [congruence|].
  destruct (Db.all_spaces _) eqn:E; [|discriminate].
  exfalso.
  destruct (last_char s) as [c|] eqn:El.
  - apply (Hlast c eq_refl).
    eapply all_spaces_last; [exact E|].
    rewrite substring_suffix_last; assumption.
  - apply last_char_none in El. subst s. simpl in Hgt. lia.
Qed.

Lemma trimEnd_last (s : string) (c : ascii) :
  last_char (Js.trimEnd s) = Some c -> Js.is_white_space c = false.
Proof.
  induction s as [|a s IH]; [discriminate|]. simpl.
  destruct (Js.trimEnd s) as [|b r] eqn:E.
  - destruct (Js.is_white_space a) eqn:Ea; [discriminate|].
    simpl. intros H. inversion H; subst. exact Ea.
  - exact IH.
Qed.

Lemma toLowerCase_last (s : string) :
  last_char (Js.toLowerCase s) = option_map Js.lower_char (last_char s).
Proof.
  induction s as [|a s IH]; [reflexivity|]. simpl.
  destruct s; [reflexivity | exact IH].
Qed.

Lemma lower_char_not_space (c : ascii) :
  Js.is_white_space c = false -> nat_of_ascii (Js.lower_char c) <> 32%nat.
Proof.
  destruct c as [[] [] [] [] [] [] [] []]; vm_compute; intros H E; discriminate.
Qed.

Lemma normalized_unpadded (username : string) (c : ascii) :
  last_char (Js.toLowerCase (Js.trim username)) = Some c -> nat_of_ascii c <> 32%nat.
Proof.
  rewrite toLowerCase_last. unfold Js.trim.
  destruct (last_char (Js.trimEnd (Js.trimStart username))) as [a|] eqn:E;
    [|discriminate].
  simpl. intros H. inversion H; subst.
  apply lower_char_not_space. eapply trimEnd_last. exact E.
Qed.

(** ** ORDER BY returns the rows it was given, sorted *)

Section OrderBy.

Context {A : Type} (le : A -> A -> bool).

Lemma insert_row_perm (x : A) (l : list A) :
  Permutation (Db.insert_row le x l) (x :: l).
Proof.
  induction l as [|y t IH]; simpl.
  - apply Permutation_refl.
  - destruct (le x y).
    + apply Permutation_refl.
    + eapply perm_trans; [apply perm_skip, IH | apply perm_swap].
Qed.

Lemma order_by_perm (l : list A) : Permutation (Db.order_by le l) l.
Proof.
  induction l as [|x t IH]; simpl.
  - constructor.
  - eapply perm_trans; [apply insert_row_perm | apply perm_skip, IH].
Qed.

Lemma order_by_length (l : list A) : List.length (Db.order_by le l) = List.length l.
Proof. apply Permutation_length, order_by_perm. Qed.

Hypothesis le_total : forall a b, le a b = true \/ le b a = true.
Hypothesis le_trans : forall a b c, le a b = true -> le b c = true -> le a c = true.

Lemma insert_row_sorted (x : A) (l : list A) :
  StronglySorted (fun a b => le a b = true) l ->
  StronglySorted (fun a b => le a b = true) (Db.insert_row le x l).
Proof.
  induction 1 as [|y t Hs IH Hy]; simpl.
  - repeat constructor.
  - destruct (le x y) eqn:E.
    + constructor; [constructor; assumption|].
      constructor; [assumption|].
      eapply Forall_impl; [|exact Hy]. intros z Hz. eauto.
    + constructor; [assumption|].
      assert (Hyx : le y x = true) by (destruct (le_total x y); congruence).
      eapply Permutation_Forall;
        [apply Permutation_sym, insert_row_perm|].
      constructor; assumption.
Qed.

Lemma order_by_sorted (l : list A) :
  StronglySorted (fun a b => le a b = true) (Db.order_by le l).
Proof.
  induction l as [|x t IH]; simpl.
  - constructor.
  - apply insert_row_sorted, IH.
Qed.

(** A row that sorts after every other row comes out last. *)
Lemma order_by_snoc (l : list A) (x : A) :
  (forall y, In y l -> le y x = true) ->
  Db.order_by le (l ++ [x]) = Db.order_by le l ++ [x].
Proof.
  intros Hx. unfold Db.order_by. rewrite fold_right_app. simpl.
  induction l as [|y t IH]; simpl; [reflexivity|].
  rewrite IH by (intros z Hz; apply Hx; right; exact Hz).
  assert (Hy : le y x = true) by (apply Hx; left; reflexivity).
  clear IH Hx.
  induction (fold_right (Db.insert_row le) [] t) as [|z u IHu]; simpl.
  - rewrite Hy. reflexivity.
  - destruct (le y z); [reflexivity|]. rewrite IHu. reflexivity.
Qed.

End OrderBy.

Lemma created_at_asc_total rank a b :
  Db.created_at_asc rank a b = true \/ Db.created_at_asc rank b a = true.
Proof.
  unfold Db.created_at_asc.
  destruct (Z.ltb_spec (m_created_at a) (m_created_at b)); simpl; auto.
  destruct (Z.ltb_spec (m_created_at b) (m_created_at a)); simpl; auto.
  assert (E : m_created_at a = m_created_at b) by lia.
  rewrite E, Z.eqb_refl. simpl.
  destruct (Z.leb_spec (rank (m_id a)) (rank (m_id b))); auto.
  right. apply Z.leb_le. lia.
Qed.

Lemma created_at_asc_trans rank a b c :
  Db.created_at_asc rank a b = true -> Db.created_at_asc rank b c = true ->
  Db.created_at_asc rank a c = true.
Proof.
  unfold Db.created_at_asc. intros H1 H2.
  apply orb_true_iff in H1. apply orb_true_iff in H2. apply orb_true_iff.
  rewrite !andb_true_iff, !Z.ltb_lt, !Z.eqb_eq, !Z.leb_le in *. lia.
Qed.

Lemma created_at_asc_le rank a b :
  Db.created_at_asc rank a b = true -> m_created_at a <= m_created_at b.
Proof.
  unfold Db.created_at_asc. intros H.
  apply orb_true_iff in H.
  rewrite andb_true_iff, Z.ltb_lt, Z.eqb_eq in H. lia.
Qed.

Lemma StronglySorted_impl {A : Type} (R S : A -> A -> Prop) (l : list A) :
  (forall a b, R a b -> S a b) -> StronglySorted R l -> StronglySorted S l.
Proof.
  intros HRS. induction 1 as [|x t Hs IH Hx]; constructor; auto.
  eapply Forall_impl; [|exact Hx]. auto.
Qed.

Lemma select_messages_chronological rank (ms : list Message) :
  chronological (Db.order_by (Db.created_at_asc rank) ms).
Proof.
  eapply StronglySorted_impl; [apply created_at_asc_le|].
  apply order_by_sorted.
  - apply created_at_asc_total.
  - apply created_at_asc_trans.
Qed.

(** Without equal creation times, chronological order is also the order
    by creation time, then id. *)
Lemma chronological_distinct_times (l : list Message) :
  chronological l -> NoDup (map m_created_at l) ->
  StronglySorted creation_then_id l.
Proof.
  induction 1 as [|x t Hs IH Hx]; intros Hnd; [constructor|].
  simpl in Hnd. inversion Hnd as [|? ? Hnotin Hnd']; subst.
  constructor; [apply IH; exact Hnd'|].
  rewrite Forall_forall in *. intros y Hy.
  left. specialize (Hx y Hy).
  assert (m_created_at x <> m_created_at y).
  { intros E. apply Hnotin. rewrite E. apply in_map. exact Hy. }
  lia.
Qed.

(** ** What each repository function does to the tables *)

Section RepositoryFacts.

Variable env : Env.

Lemma saveMessage_resolved sessionId role content w r w' :
  Db.saveMessage env sessionId role content w = (Resolved r, w') ->
  r = mkMessage (messages_seq (db w) + 1) sessionId role content (clock env (tick w))
  /\ Db.references_session sessionId (db w) = true
  /\ users (db w') = users (db w)
  /\ sessions (db w') = sessions (db w)
  /\ messages (db w') = messages (db w) ++ [r]
  /\ sent w' = sent w.
Proof.
  intros H. apply sql_resolved in H as (_ & _ & d & Hrun & ->).
  unfold Db.insert_message in Hrun.
  destruct (Db.serial_max <=? messages_seq (db w)); [discriminate|].
  destruct (Db.references_session sessionId (db w)); inversion Hrun; subst.
  simpl. repeat split; reflexivity.
Qed.

Lemma saveMessage_rejected sessionId role content w e w' :
  Db.saveMessage env sessionId role content w = (Rejected e, w') ->
  users (db w') = users (db w)
  /\ sessions (db w') = sessions (db w)
  /\ messages (db w') = messages (db w)
  /\ sent w' = sent w.
Proof.
  intros H. apply sql_rejected in H as (_ & Hs & [Hd | (se & Hrun)]).
  - rewrite Hd. auto.
  - unfold Db.insert_message in Hrun.
    destruct (Db.serial_max <=? messages_seq (db w));
      [inversion Hrun as [[He Hd]]; auto|].
    destruct (Db.references_session sessionId (db w)); inversion Hrun as [[He Hd]].
    simpl. auto.
Qed.

Lemma getSessionMessages_resolved sessionId w history w' :
  Db.getSessionMessages env sessionId w = (Resolved history, w') ->
  history = Db.order_by (Db.created_at_asc (tie_rank env (tick w)))
                        (Db.of_session sessionId (messages (db w)))
  /\ db w' = db w /\ sent w' = sent w.
Proof.
  intros H. apply sql_resolved in H as (_ & _ & d & Hrun & ->).
  unfold Db.select_messages in Hrun. inversion Hrun; subst. auto.
Qed.

Lemma getSessionMessages_rejected sessionId w e w' :
  Db.getSessionMessages env sessionId w = (Rejected e, w') ->
  db w' = db w /\ sent w' = sent w.
Proof.
  intros H. apply sql_rejected in H as (_ & Hs & [Hd | (se & Hrun)]); [auto|].
  unfold Db.select_messages in Hrun. discriminate.
Qed.

Lemma updateSessionTitle_resolved sessionId title w w' :
  (String.length title <= 100)%nat ->
  Db.updateSessionTitle env sessionId title w = (Resolved tt, w') ->
  users (db w') = users (db w)
  /\ sessions (db w') = map (Db.set_title sessionId title) (sessions (db w))
  /\ messages (db w') = messages (db w)
  /\ sent w' = sent w.
Proof.
  intros Hlen H. apply sql_resolved in H as (_ & _ & d & Hrun & ->).
  unfold Db.update_title in Hrun. rewrite (varchar_fits _ _ Hlen) in Hrun.
  inversion Hrun; subst. simpl. auto.
Qed.

Lemma updateSessionTitle_rejected sessionId title w e w' :
  Db.updateSessionTitle env sessionId title w = (Rejected e, w') ->
  db w' = db w /\ sent w' = sent w.
Proof.
  intros H. apply sql_rejected in H as (_ & Hs & [Hd | (se & Hrun)]); [auto|].
  unfold Db.update_title in Hrun.
  destruct (Db.varchar 100 title); inversion Hrun as [[He Hd]]. auto.
Qed.

Lemma generateAIResponse_resolved userMessage history w text w' :
  Ai.generateAIResponse env userMessage history w = (Resolved text, w') ->
  complete env (List.length (sent w)) (Ai.prompt_of userMessage history) = Some text
  /\ db w' = db w
  /\ sent w' = sent w ++ [Ai.prompt_of userMessage history].
Proof.
  unfold Ai.generateAIResponse. intros H.
  destruct (complete env _ _); inversion H; subst. simpl. auto.
Qed.

Lemma generateAIResponse_rejected userMessage history w e w' :
  Ai.generateAIResponse env userMessage history w = (Rejected e, w') ->
  complete env (List.length (sent w)) (Ai.prompt_of userMessage history) = None
  /\ e = ProviderFailure
  /\ db w' = db w
  /\ sent w' = sent w ++ [Ai.prompt_of userMessage history].
Proof.
  unfold Ai.generateAIResponse. intros H.
  destruct (complete env _ _); inversion H; subst. simpl. auto.
Qed.

(** The history read back after an append is one longer than the
    session was. *)
Lemma history_length sessionId role content w r w1 history w2 :
  Db.saveMessage env sessionId role content w = (Resolved r, w1) ->
  Db.getSessionMessages env sessionId w1 = (Resolved history, w2) ->
  List.length history = S (message_count sessionId w).
Proof.
  intros H1 H2.
  apply saveMessage_resolved in H1 as (Hr & _ & _ & _ & Hm & _).
  apply getSessionMessages_resolved in H2 as (-> & _ & _).
  rewrite order_by_length, Hm. unfold message_count, Db.of_session.
  rewrite filter_app, length_app. simpl.
  rewrite Hr. simpl. rewrite Z.eqb_refl. simpl. lia.
Qed.

(** Once the turn's first append went through, the rename of the
    first 50 characters can only fail because its statement does not
    reach the store. *)
Lemma rename_fails_only_out_of_reach sessionId message w saved w1 w4 e w5 :
  Db.saveMessage env sessionId RoleUser message w = (Resolved saved, w1) ->
  Db.updateSessionTitle env sessionId (Js.substring_0 50 message) w4 = (Rejected e, w5) ->
  store_up env (tick w4) = false /\ e = SqlFailure StoreUnavailable.
Proof.
  intros H1 H5.
  apply sql_resolved in H1 as (_ & Hok & _).
  apply andb_true_iff in Hok as [Hid Htext].
  unfold Db.updateSessionTitle, Db.sql, Db.update_title in H5.
  rewrite (text_substring_0 50 _ Htext), Hid in H5.
  rewrite varchar_fits in H5
    by (pose proof (substring_0_length 50 message); lia).
  destruct (store_up env (tick w4)); simpl in H5; inversion H5; subst.
  split; reflexivity.
Qed.

End RepositoryFacts.

(** ** One chat turn *)

Section ChatTurn.

Variable env : Env.

(** C3. A chat turn whose message is empty or white space only once
    trimmed answers with the failure envelope "Message cannot be empty"
    and leaves the world as it was: no message is appended, no prompt
    is sent to the provider, no title changes. *)
Theorem chat_blank_message_rejected sessionId message w :
  Js.trim message = "" ->
  Api.chat env sessionId (Some message) w
  = (Api.Failure "Message cannot be empty", w).
Proof.
  intros H. unfold Api.chat, Api.try_catch. rewrite H. reflexivity.
Qed.

(** The prompt log after a turn whose append and read-back succeeded:
    exactly one prompt was sent, whatever happened afterwards. *)
Lemma chat_sent sessionId message w saved w1 history w2 :
  Js.truthy (Js.trim message) = true ->
  Db.saveMessage env sessionId RoleUser message w = (Resolved saved, w1) ->
  Db.getSessionMessages env sessionId w1 = (Resolved history, w2) ->
  sent (snd (Api.chat env sessionId (Some message) w))
  = sent w ++ [Ai.prompt_of message (Js.slice_0_m1 history)].
Proof.
  intros Ht H1 H2.
  unfold Api.chat, Api.try_catch, bind.
  rewrite Ht. cbn [negb]. cbv beta iota. rewrite H1, H2.
  apply saveMessage_resolved in H1 as (_ & _ & _ & _ & _ & S1).
  apply getSessionMessages_resolved in H2 as (_ & _ & S2).
  destruct (Ai.generateAIResponse env message (Js.slice_0_m1 history) w2)
    as [[text|e] w3] eqn:E3.
  2: { apply generateAIResponse_rejected in E3 as (_ & _ & _ & S3).
       simpl. congruence. }
  apply generateAIResponse_resolved in E3 as (_ & _ & S3).
  destruct (Db.saveMessage env sessionId RoleAssistant text w3)
    as [[reply|e] w4] eqn:E4.
  2: { apply saveMessage_rejected in E4 as (_ & _ & _ & S4). simpl. congruence. }
  apply saveMessage_resolved in E4 as (_ & _ & _ & _ & _ & S4).
  destruct (List.length history <=? 1)%nat.
  - pose proof (sql_frame env
      (Db.text (Js.substring_0 50 message) && Db.int4 sessionId)
      (fun _ _ => Db.update_title sessionId (Js.substring_0 50 message)) w4)
      as [S5 _].
    unfold Db.updateSessionTitle.
    destruct (Db.sql env _ _ w4) as [[[]|e] w5]; simpl in *; congruence.
  - simpl. congruence.
Qed.

(** C1, as the code has it. The sessions after a chat turn are the
    sessions before it, with the title of the turn's session set to the
    first 50 characters of the raw message exactly when the turn
    succeeded and the session held no message before it; a failed turn
    and a turn on a session that already holds messages leave every
    title unchanged. *)
Theorem chat_title_rule sessionId message w r w' :
  Api.chat env sessionId (Some message) w = (r, w') ->
  sessions (db w') =
    if is_chat_ok r && (message_count sessionId w =? 0)%nat
    then map (Db.set_title sessionId (Js.substring_0 50 message)) (sessions (db w))
    else sessions (db w).
Proof.
  unfold Api.chat, Api.try_catch, bind, ret. intros H.
  destruct (Js.truthy (Js.trim message)); simpl in H;
    [|inversion H; subst; reflexivity].
  destruct (Db.saveMessage env sessionId RoleUser message w)
    as [[saved|e] w1] eqn:E1.
  2: { inversion H; subst. simpl.
       apply saveMessage_rejected in E1. tauto. }
  destruct (Db.getSessionMessages env sessionId w1) as [[history|e] w2] eqn:E2.
  2: { inversion H; subst. simpl.
       apply saveMessage_resolved in E1 as (_ & _ & _ & S1 & _).
       apply getSessionMessages_rejected in E2 as [D2 _]. congruence. }
  pose proof (history_length env _ _ _ _ _ _ _ _ E1 E2) as Hlen.
  apply saveMessage_resolved in E1 as (_ & _ & _ & S1 & _).
  apply getSessionMessages_resolved in E2 as (_ & D2 & _).
  destruct (Ai.generateAIResponse env message (Js.slice_0_m1 history) w2)
    as [[text|e] w3] eqn:E3.
  2: { inversion H; subst. simpl.
       apply generateAIResponse_rejected in E3 as (_ & _ & D3 & _). congruence. }
  apply generateAIResponse_resolved in E3 as (_ & D3 & _).
  destruct (Db.saveMessage env sessionId RoleAssistant text w3)
    as [[reply|e] w4] eqn:E4.
  2: { inversion H; subst. simpl.
       apply saveMessage_rejected in E4 as (_ & S4 & _). congruence. }
  apply saveMessage_resolved in E4 as (_ & _ & _ & S4 & _).
  assert (Hsame : sessions (db w4) = sessions (db w)) by congruence.
  rewrite Hlen in H.
  destruct (message_count sessionId w) as [|n]; simpl in H.
  - destruct (Db.updateSessionTitle env sessionId (Js.substring_0 50 message) w4)
      as [[[]|e] w5] eqn:E5; inversion H; subst; simpl.
    + apply updateSessionTitle_resolved in E5 as (_ & S5 & _).
      * congruence.
      * pose proof (substring_0_length 50 message). lia.
    + apply updateSessionTitle_rejected in E5 as [D5 _]. congruence.
  - inversion H; subst. simpl. exact Hsame.
Qed.

(** C2, as the code has it. On a first turn whose append, read-back,
    provider call and second append all succeeded, a failing rename
    fails the turn: the handler answers with the failure envelope
    "Failed to process message" instead of the assistant message, while
    both messages stay stored and no title changes. *)
Theorem chat_rename_failure_fails_turn
    sessionId message w saved w1 history w2 text w3 reply w4 e w5 :
  Js.truthy (Js.trim message) = true ->
  message_count sessionId w = 0%nat ->
  Db.saveMessage env sessionId RoleUser message w = (Resolved saved, w1) ->
  Db.getSessionMessages env sessionId w1 = (Resolved history, w2) ->
  Ai.generateAIResponse env message (Js.slice_0_m1 history) w2 = (Resolved text, w3) ->
  Db.saveMessage env sessionId RoleAssistant text w3 = (Resolved reply, w4) ->
  Db.updateSessionTitle env sessionId (Js.substring_0 50 message) w4 = (Rejected e, w5) ->
  Api.chat env sessionId (Some message) w
  = (Api.Failure "Failed to process message", w5)
  /\ messages (db w5) = messages (db w) ++ [saved; reply]
  /\ sessions (db w5) = sessions (db w).
Proof.
  intros Ht Hfirst H1 H2 H3 H4 H5.
  pose proof (history_length env _ _ _ _ _ _ _ _ H1 H2) as Hlen.
  split.
  - unfold Api.chat, Api.try_catch, bind.
    rewrite Ht. cbn [negb]. cbv beta iota.
    rewrite H1, H2, H3, H4, Hlen, Hfirst. cbn [Nat.leb]. rewrite H5. reflexivity.
  - apply saveMessage_resolved in H1 as (_ & _ & _ & S1 & M1 & _).
    apply getSessionMessages_resolved in H2 as (_ & D2 & _).
    apply generateAIResponse_resolved in H3 as (_ & D3 & _).
    apply saveMessage_resolved in H4 as (_ & _ & _ & S4 & M4 & _).
    apply updateSessionTitle_rejected in H5 as [D5 _].
    rewrite D5, M4, S4, D3, D2, M1, S1, <- app_assoc. auto.
Qed.

(** C4. When the provider call fails after the user message was
    appended, the handler answers with the failure envelope, the user
    message is the one row added to the store and stays there, and no
    assistant message is appended. *)
Theorem chat_provider_failure_keeps_user_message
    sessionId message w saved w1 history w2 e w3 :
  Js.truthy (Js.trim message) = true ->
  Db.saveMessage env sessionId RoleUser message w = (Resolved saved, w1) ->
  Db.getSessionMessages env sessionId w1 = (Resolved history, w2) ->
  Ai.generateAIResponse env message (Js.slice_0_m1 history) w2 = (Rejected e, w3) ->
  Api.chat env sessionId (Some message) w
  = (Api.Failure "Failed to process message", w3)
  /\ messages (db w3) = messages (db w) ++ [saved]
  /\ m_session_id saved = sessionId
  /\ m_role saved = RoleUser
  /\ m_content saved = message
  /\ In saved (Db.of_session sessionId (messages (db w3)))
  /\ sessions (db w3) = sessions (db w).
Proof.
  intros Ht H1 H2 H3.
  split.
  - unfold Api.chat, Api.try_catch, bind.
    rewrite Ht. cbn [negb]. cbv beta iota.
    rewrite H1, H2, H3. reflexivity.
  - apply saveMessage_resolved in H1 as (Hs & _ & _ & S1 & M1 & _).
    apply getSessionMessages_resolved in H2 as (_ & D2 & _).
    apply generateAIResponse_rejected in H3 as (_ & _ & D3 & _).
    assert (Hm : messages (db w3) = messages (db w) ++ [saved]) by congruence.
    rewrite Hm. subst saved. simpl. repeat split; try congruence.
    unfold Db.of_session. apply filter_In. split.
    + apply in_or_app. right. left. reflexivity.
    + simpl. apply Z.eqb_refl.
Qed.

(** C8, as the code has it. The prompt of a turn is the system message,
    the history read back without its last element, and the new user
    message. When the appended message is later than every message the
    session held, that last element is the appended message, and the
    prompt is: the system message, the session's earlier messages in
    chronological order with their roles, then the new user message,
    once. *)
Theorem chat_prompt_when_append_is_latest sessionId message w saved w1 history w2 :
  Js.truthy (Js.trim message) = true ->
  Db.saveMessage env sessionId RoleUser message w = (Resolved saved, w1) ->
  Db.getSessionMessages env sessionId w1 = (Resolved history, w2) ->
  (forall p, In p (Db.of_session sessionId (messages (db w))) ->
             m_created_at p < m_created_at saved) ->
  exists prior,
    Permutation prior (Db.of_session sessionId (messages (db w)))
    /\ chronological prior
    /\ history = prior ++ [saved]
    /\ Js.slice_0_m1 history = prior
    /\ sent (snd (Api.chat env sessionId (Some message) w))
       = sent w
         ++ [mkPrompt PromptSystem Ai.system_content
             :: map (fun p => mkPrompt (PromptOf (m_role p)) (m_content p)) prior
             ++ [mkPrompt (PromptOf RoleUser) message]].
Proof.
  intros Ht H1 H2 Hlate.
  pose proof (chat_sent _ _ _ _ _ _ _ Ht H1 H2) as Hsent.
  apply saveMessage_resolved in H1 as (Hs & _ & _ & _ & M1 & _).
  apply getSessionMessages_resolved in H2 as (Hh & _ & _).
  set (rank := tie_rank env (tick w1)) in *.
  exists (Db.order_by (Db.created_at_asc rank)
            (Db.of_session sessionId (messages (db w)))).
  assert (Hhist : history
                  = Db.order_by (Db.created_at_asc rank)
                      (Db.of_session sessionId (messages (db w))) ++ [saved]).
  { rewrite Hh, M1. unfold Db.of_session at 1. rewrite filter_app. simpl.
    replace (m_session_id saved =? sessionId) with true
      by (rewrite Hs; simpl; symmetry; apply Z.eqb_refl).
    apply order_by_snoc. intros y Hy.
    unfold Db.created_at_asc. apply orb_true_iff. left.
    apply Z.ltb_lt. apply Hlate. exact Hy. }
  repeat split.
  - apply order_by_perm.
  - apply select_messages_chronological.
  - exact Hhist.
  - rewrite Hhist. apply removelast_last.
  - rewrite Hsent, Hhist. unfold Js.slice_0_m1. rewrite removelast_last.
    reflexivity.
Qed.

End ChatTurn.

(** ** The schema constraints hold in every world the server reaches *)

Lemma distinct_snoc (l : list string) (x : string) :
  distinct l = true -> existsb (String.eqb x) l = false -> distinct (l ++ [x]) = true.
Proof.
  induction l as [|y t IH]; simpl; intros Hd Hx; [reflexivity|].
  apply andb_true_iff in Hd as [Hy Ht].
  apply orb_false_iff in Hx as [Hxy Hxt].
  rewrite existsb_app. simpl. rewrite orb_false_r.
  rewrite (String.eqb_sym y x), Hxy, orb_false_r, Hy. simpl.
  apply IH; assumption.
Qed.

Lemma existsb_map_username (name : string) (us : list User) :
  existsb (String.eqb name) (map u_username us)
  = existsb (fun u => (u_username u =? name)%string) us.
Proof.
  induction us as [|u t IH]; simpl; [reflexivity|].
  rewrite IH, (String.eqb_sym name). reflexivity.
Qed.

Lemma references_session_ids (d d' : Database) (id : Z) :
  map s_id (sessions d') = map s_id (sessions d) ->
  Db.references_session id d' = Db.references_session id d.
Proof.
  unfold Db.references_session. intros H.
  assert (E : forall l, existsb (fun s => s_id s =? id) l
                        = existsb (fun i => i =? id) (map s_id l)).
  { induction l as [|s t IH]; simpl; congruence. }
  rewrite !E, H. reflexivity.
Qed.

Lemma set_title_id sessionId title s : s_id (Db.set_title sessionId title s) = s_id s.
Proof. unfold Db.set_title. destruct (s_id s =? sessionId); reflexivity. Qed.

Lemma set_title_user_id sessionId title s :
  s_user_id (Db.set_title sessionId title s) = s_user_id s.
Proof. unfold Db.set_title. destruct (s_id s =? sessionId); reflexivity. Qed.

Lemma forallb_filter {A : Type} (p q : A -> bool) (l : list A) :
  forallb p l = true -> forallb p (filter q l) = true.
Proof.
  rewrite !forallb_forall. intros H x Hx. apply filter_In in Hx as [Hx _]. auto.
Qed.

Section Constraints.

Ltac split_integrity H :=
  unfold integrity in H;
  apply andb_true_iff in H as [H ?Hm];
  apply andb_true_iff in H as [?Hu ?Hs].

Lemma insert_user_integrity now username d :
  integrity d = true -> integrity (snd (Db.insert_user now username d)) = true.
Proof.
  intros H. unfold Db.insert_user.
  destruct (Db.varchar 50 username) as [name|]; [|exact H].
  destruct (Db.serial_max <=? users_seq d); [exact H|].
  destruct (existsb _ (users d)) eqn:E; [exact H|].
  split_integrity H. unfold integrity. simpl.
  rewrite map_app. simpl.
  rewrite distinct_snoc; [|assumption|rewrite existsb_map_username; exact E].
  simpl. apply andb_true_iff. split; [|exact Hm].
  rewrite forallb_forall in *. intros s Hin. specialize (Hs s Hin).
  unfold Db.references_user in *. simpl.
  destruct (s_user_id s); [|reflexivity].
  rewrite existsb_app, Hs. reflexivity.
Qed.

Lemma insert_session_integrity now userId title d :
  integrity d = true -> integrity (snd (Db.insert_session now userId title d)) = true.
Proof.
  intros H. unfold Db.insert_session.
  destruct (Db.varchar 100 title) as [t|]; [|exact H].
  destruct (Db.serial_max <=? sessions_seq d); [exact H|].
  destruct (Db.references_user userId d) eqn:E; [|exact H].
  split_integrity H. unfold integrity. simpl. rewrite Hu. simpl.
  apply andb_true_iff. split.
  - rewrite forallb_app. simpl. rewrite andb_true_r.
    apply andb_true_iff. split; assumption.
  - rewrite forallb_forall in *. intros m Hin. specialize (Hm m Hin).
    unfold Db.references_session in *. simpl.
    rewrite existsb_app, Hm. reflexivity.
Qed.

Lemma update_title_integrity sessionId title d :
  integrity d = true -> integrity (snd (Db.update_title sessionId title d)) = true.
Proof.
  intros H. unfold Db.update_title.
  destruct (Db.varchar 100 title) as [t|]; [|exact H].
  split_integrity H. unfold integrity. simpl. rewrite Hu. simpl.
  apply andb_true_iff. split.
  - rewrite forallb_forall in *. intros s Hin.
    apply in_map_iff in Hin as (s0 & <- & Hin).
    rewrite set_title_user_id. apply (Hs s0 Hin).
  - rewrite forallb_forall in *. intros m Hin. specialize (Hm m Hin).
    rewrite <- Hm. apply references_session_ids. simpl.
    rewrite map_map. apply map_ext. intros s. apply set_title_id.
Qed.

Lemma delete_session_integrity sessionId d :
  integrity d = true -> integrity (snd (Db.delete_session sessionId d)) = true.
Proof.
  intros H. split_integrity H. unfold Db.delete_session, integrity. simpl.
  rewrite Hu. simpl. apply andb_true_iff. split.
  - apply forallb_filter. exact Hs.
  - rewrite forallb_forall in *. intros m Hin.
    apply filter_In in Hin as [Hin Hkeep]. specialize (Hm m Hin).
    unfold Db.references_session in *. simpl.
    apply existsb_exists in Hm as (s & Hs_in & Hs_id).
    apply existsb_exists. exists s. split; [|exact Hs_id].
    apply filter_In. split; [exact Hs_in|].
    destruct (s_id s =? sessionId) eqn:E; [|reflexivity].
    apply negb_true_iff in Hkeep.
    assert (Hx : existsb (fun s0 => s_id s0 =? m_session_id m)
                   (filter (fun s0 => s_id s0 =? sessionId) (sessions d)) = true).
    { apply existsb_exists. exists s. split; [|exact Hs_id].
      apply filter_In. split; assumption. }
    congruence.
Qed.

Lemma insert_message_integrity now sessionId role content d :
  integrity d = true ->
  integrity (snd (Db.insert_message now sessionId role content d)) = true.
Proof.
  intros H. unfold Db.insert_message.
  destruct (Db.serial_max <=? messages_seq d); [exact H|].
  destruct (Db.references_session sessionId d) eqn:E; [|exact H].
  split_integrity H. unfold integrity. simpl. rewrite Hu. simpl.
  apply andb_true_iff. split; [exact Hs|].
  rewrite forallb_app. simpl. rewrite andb_true_r.
  apply andb_true_iff. split; [exact Hm | exact E].
Qed.

Lemma delete_messages_integrity sessionId d :
  integrity d = true -> integrity (snd (Db.delete_messages sessionId d)) = true.
Proof.
  intros H. split_integrity H. unfold Db.delete_messages, integrity. simpl.
  rewrite Hu. simpl. apply andb_true_iff. split; [exact Hs|].
  apply forallb_filter. exact Hm.
Qed.

Variable env : Env.

Lemma ret_keeps {A : Type} (a : A) : keeps_integrity (ret a).
Proof. intros w H. exact H. Qed.

Lemma bind_keeps {A B : Type} (m : Async A) (f : A -> Async B) :
  keeps_integrity m -> (forall a, keeps_integrity (f a)) -> keeps_integrity (bind m f).
Proof.
  intros Hm Hf w H. unfold bind. specialize (Hm w H).
  destruct (m w) as [[a|e] w1]; simpl in *; [apply Hf; exact Hm | exact Hm].
Qed.

Lemma sql_keeps {A : Type} (ok : bool) (run : Z -> (Z -> Z) -> Db.Stmt A) :
  (forall now rank d, integrity d = true -> integrity (snd (run now rank d)) = true) ->
  keeps_integrity (Db.sql env ok run).
Proof.
  intros Hrun w H. unfold Db.sql.
  destruct (store_up env (tick w)); simpl; [|exact H].
  destruct ok; simpl; [|exact H].
  specialize (Hrun (clock env (tick w)) (tie_rank env (tick w)) (db w) H).
  destruct (run _ _ _) as [[e|a] d]; simpl in *; exact Hrun.
Qed.

Lemma generateAIResponse_keeps userMessage history :
  keeps_integrity (Ai.generateAIResponse env userMessage history).
Proof.
  intros w H. unfold Ai.generateAIResponse.
  destruct (complete env _ _); simpl; exact H.
Qed.

Lemma try_catch_keeps (body : Async Api.Response) (error : string) w :
  keeps_integrity body -> integrity (db w) = true ->
  integrity (db (snd (Api.try_catch body error w))) = true.
Proof.
  intros Hb H. unfold Api.try_catch. specialize (Hb w H).
  destruct (body w) as [[r|e] w1]; simpl in *; exact Hb.
Qed.

Ltac keeps :=
  repeat first
    [ apply ret_keeps
    | apply generateAIResponse_keeps
    | apply bind_keeps; [|intros ?]
    | apply sql_keeps; intros ? ? ? ?;
      first [ assumption
            | apply insert_user_integrity
            | apply insert_session_integrity
            | apply update_title_integrity
            | apply delete_session_integrity
            | apply insert_message_integrity
            | apply delete_messages_integrity ]; assumption ].

Lemma handle_integrity (r : Request) (w : World) :
  integrity (db w) = true -> integrity (db (snd (handle env r w))) = true.
Proof.
  intros H. destruct r; simpl; apply try_catch_keeps; try exact H.
  - destruct username as [username|]; [|keeps].
    destruct (negb (Js.truthy username) || _); [keeps|].
    apply bind_keeps; [|intros ?; keeps].
    unfold Db.getOrCreateUser. apply bind_keeps; [keeps|].
    intros [|row rest]; keeps.
  - unfold Db.getUserSessions. keeps.
  - unfold Db.createSession. keeps.
  - unfold Db.deleteSession. keeps.
  - unfold Db.getSessionMessages. keeps.
  - destruct message as [message|]; [|keeps].
    destruct (negb (Js.truthy (Js.trim message))); [keeps|].
    unfold Db.saveMessage, Db.getSessionMessages, Db.updateSessionTitle.
    keeps. destruct (List.length _ <=? 1)%nat; keeps.
  - unfold Db.clearSessionMessages. keeps.
Qed.

(** The constraints hold after any sequence of requests served from the
    empty tables. *)
Lemma serve_integrity (rs : list Request) (w : World) :
  integrity (db w) = true -> integrity (db (serve env rs w)) = true.
Proof.
  revert w. induction rs as [|r rs IH]; intros w H; simpl; [exact H|].
  apply IH, handle_integrity, H.
Qed.

End Constraints.

Lemma boot_integrity : integrity (db boot) = true.
Proof. reflexivity. Qed.

(** ** Listing, deleting, logging in, creating *)

Section Repositories.

Variable env : Env.

Lemma getSessionMessages_up sessionId w :
  store_up env (tick w) = true -> Db.int4 sessionId = true ->
  Db.getSessionMessages env sessionId w
  = (Resolved (Db.order_by (Db.created_at_asc (tie_rank env (tick w)))
                 (Db.of_session sessionId (messages (db w)))),
     mkWorld (db w) (S (tick w)) (sent w)).
Proof.
  intros Hup Hid. unfold Db.getSessionMessages, Db.sql.
  rewrite Hup, Hid. reflexivity.
Qed.

Lemma of_session_removed sessionId (ms : list Message) :
  Db.of_session sessionId
    (filter (fun m => negb (m_session_id m =? sessionId)) ms) = [].
Proof.
  unfold Db.of_session.
  induction ms as [|m t IH]; simpl; [reflexivity|].
  destruct (m_session_id m =? sessionId) eqn:E; simpl; [exact IH|].
  rewrite E. exact IH.
Qed.

(** C5, as the code has it. After any run of appends, listing a
    session's messages returns exactly the messages the session holds,
    in non-decreasing creation-time order. Among equal creation times
    the order is the store's; when the listed creation times are all
    different, the order is also the order by creation time, then id. *)
Theorem appended_messages_listed_chronologically ops w sessionId :
  let w1 := appends env ops w in
  store_up env (tick w1) = true ->
  Db.int4 sessionId = true ->
  exists history,
    fst (Db.getSessionMessages env sessionId w1) = Resolved history
    /\ Permutation history (Db.of_session sessionId (messages (db w1)))
    /\ chronological history
    /\ (NoDup (map m_created_at history) -> StronglySorted creation_then_id history).
Proof.
  intros w1 Hup Hid. eexists. split; [|split; [|split]].
  - rewrite (getSessionMessages_up _ _ Hup Hid). reflexivity.
  - apply order_by_perm.
  - apply select_messages_chronological.
  - apply chronological_distinct_times, select_messages_chronological.
Qed.

(** C6. Deleting a session is one statement. It is carried out
    whenever the store is reachable and the id is an INTEGER; and it
    either fails and changes nothing, or removes the session together
    with every message it owns and nothing else, after which no message
    carries the session's id and listing the session returns the empty
    list. *)
Theorem deleteSession_cascades sessionId w r w' :
  Db.references_session sessionId (db w) = true ->
  Db.deleteSession env sessionId w = (r, w') ->
  (store_up env (tick w) = true -> Db.int4 sessionId = true -> r = Resolved tt)
  /\ ((r = Resolved tt
       /\ Db.references_session sessionId (db w') = false
       /\ sessions (db w') = filter (fun s => negb (s_id s =? sessionId)) (sessions (db w))
       /\ messages (db w')
          = filter (fun m => negb (m_session_id m =? sessionId)) (messages (db w))
       /\ Db.of_session sessionId (messages (db w')) = []
       /\ (store_up env (tick w') = true ->
           fst (Db.getSessionMessages env sessionId w') = Resolved []))
      \/ (exists e, r = Rejected e /\ db w' = db w)).
Proof.
  intros Hex H. split.
  { intros Hup Hid. unfold Db.deleteSession, Db.sql in H.
    rewrite Hup, Hid in H. simpl in H. inversion H. reflexivity. }
  destruct r as [[]|e].
  - left. apply sql_resolved in H as (_ & Hid & d & Hrun & ->).
    unfold Db.delete_session in Hrun. inversion Hrun; subst d; clear Hrun.
    simpl.
    assert (Hmsgs :
      filter (fun m => negb (existsb (fun s => s_id s =? m_session_id m)
                               (filter (fun s => s_id s =? sessionId) (sessions (db w)))))
             (messages (db w))
      = filter (fun m => negb (m_session_id m =? sessionId)) (messages (db w))).
    { apply filter_ext. intros m. f_equal.
      destruct (m_session_id m =? sessionId) eqn:E.
      - apply Z.eqb_eq in E. rewrite E.
        unfold Db.references_session in Hex.
        apply existsb_exists in Hex as (s & Hin & Hs).
        apply existsb_exists. exists s. split; [|exact Hs].
        apply filter_In. split; assumption.
      - apply not_true_is_false. intros Hx.
        apply existsb_exists in Hx as (s & Hin & Hs).
        apply filter_In in Hin as [_ Hid'].
        apply Z.eqb_eq in Hs. apply Z.eqb_eq in Hid'.
        apply Z.eqb_neq in E. congruence. }
    pose proof (of_session_removed sessionId (messages (db w))) as Hnone.
    rewrite Hmsgs. repeat split.
    + unfold Db.references_session. simpl.
      apply not_true_is_false. intros Hx.
      apply existsb_exists in Hx as (s & Hin & Hs).
      apply filter_In in Hin as [_ Hne]. rewrite Hs in Hne. discriminate.
    + exact Hnone.
    + intros Hup. unfold Db.getSessionMessages, Db.sql, Db.select_messages.
      simpl. rewrite Hup, Hid. simpl. rewrite Hnone. reflexivity.
  - right. exists e. split; [reflexivity|].
    apply sql_rejected in H as (_ & _ & [Hd | (se & Hrun)]); [exact Hd|].
    unfold Db.delete_session in Hrun. discriminate.
Qed.

(** A login that finds the user's row answers with it, or with the
    failure envelope when the store is out of reach, and changes nothing
    but the statement counter. *)
Lemma login_known_user username user rest w :
  (2 <= String.length (Js.trim username))%nat ->
  Db.text (Js.toLowerCase (Js.trim username)) = true ->
  filter (fun u => (u_username u =? Js.toLowerCase (Js.trim username))%string)
         (users (db w)) = user :: rest ->
  Api.login env (Some username) w
  = (if store_up env (tick w) then Api.LoginOk user else Api.Failure "Failed to login",
     mkWorld (db w) (S (tick w)) (sent w)).
Proof.
  intros Hlen Htext Hrow.
  unfold Api.login, Api.try_catch.
  assert (Hvalid : negb (Js.truthy username)
                   || (String.length (Js.trim username) <? 2)%nat = false).
  { apply orb_false_iff. split.
    - destruct username; [simpl in Hlen; lia | reflexivity].
    - apply Nat.ltb_ge. exact Hlen. }
  rewrite Hvalid.
  unfold Db.getOrCreateUser, bind, Db.sql, Db.select_user.
  rewrite Htext. destruct (store_up env (tick w)); simpl; [|reflexivity].
  rewrite Hrow. reflexivity.
Qed.

(** What a successful login leaves behind: the row it answered with is
    the first row of the normalized username. *)
Lemma login_ok_row username w user w1 :
  Api.login env (Some username) w = (Api.LoginOk user, w1) ->
  Db.text (Js.toLowerCase (Js.trim username)) = true
  /\ (tick w < tick w1)%nat
  /\ exists rest,
       filter (fun u => (u_username u =? Js.toLowerCase (Js.trim username))%string)
              (users (db w1)) = user :: rest.
Proof.
  unfold Api.login, Api.try_catch. intros H.
  destruct (negb (Js.truthy username) || _); [discriminate|].
  set (name := Js.toLowerCase (Js.trim username)) in *.
  unfold Db.getOrCreateUser, bind in H.
  destruct (Db.sql env (Db.text name) (fun _ _ => Db.select_user name) w)
    as [[result|e] w0] eqn:E0; [|discriminate].
  apply sql_resolved in E0 as (_ & Htext & d & Hrun & ->).
  unfold Db.select_user in Hrun. inversion Hrun; subst; clear Hrun.
  split; [exact Htext|].
  destruct (filter _ (users (db w))) as [|row rest] eqn:Erows.
  - destruct (Db.sql env (Db.text name) (fun now _ => Db.insert_user now name) _)
      as [[row|e] w2] eqn:E2; [|discriminate].
    inversion H; subst; clear H.
    apply sql_resolved in E2 as (_ & _ & d & Hrun & ->). simpl in *.
    split; [lia|]. exists [].
    unfold Db.insert_user in Hrun.
    destruct (Db.varchar 50 name) as [stored|] eqn:Ev; [|discriminate].
    destruct (Db.serial_max <=? users_seq (db w)); [discriminate|].
    destruct (existsb _ (users (db w))) eqn:Ex; [discriminate|].
    inversion Hrun; subst; clear Hrun. simpl.
    rewrite filter_app, Erows. simpl.
    assert (Hstored : stored = name).
    { eapply varchar_unpadded; [|exact Ev]. apply normalized_unpadded. }
    rewrite Hstored, String.eqb_refl. reflexivity.
  - inversion H; subst; clear H. simpl. split; [lia|]. exists rest. exact Erows.
Qed.

End Repositories.

Section Tolerance.

Variable env : Env.

(** C7. Once a login with a valid username has answered with a user,
    every repeated login with that username answers with the same user
    record (or, when the store is out of reach, with the failure
    envelope and no user at all), and none of them adds a row to the
    users table. *)
Theorem login_idempotent username w user w1 k :
  (2 <= String.length (Js.trim username))%nat ->
  Api.login env (Some username) w = (Api.LoginOk user, w1) ->
  let wk := serve env (repeat (PostLogin (Some username)) k) w1 in
  fst (Api.login env (Some username) wk)
  = (if store_up env (tick wk) then Api.LoginOk user
     else Api.Failure "Failed to login")
  /\ users (db (snd (Api.login env (Some username) wk))) = users (db w1).
Proof.
  intros Hlen Hfirst. simpl.
  apply login_ok_row in Hfirst as (Htext & _ & rest & Hrow).
  clear w. revert w1 Hrow.
  induction k as [|k IH]; intros w1 Hrow; simpl.
  - rewrite (login_known_user env _ _ _ _ Hlen Htext Hrow).
    split; reflexivity.
  - rewrite (login_known_user env _ _ _ _ Hlen Htext Hrow). simpl.
    apply (IH (mkWorld (db w1) (S (tick w1)) (sent w1))). exact Hrow.
Qed.


Lemma filter_none {A : Type} (p : A -> bool) (l : list A) :
  existsb p l = false -> filter p l = [] /\ filter (fun x => negb (p x)) l = l.
Proof.
  induction l as [|x t IH]; simpl; [auto|].
  intros H. apply orb_false_iff in H as [Hx Ht].
  rewrite Hx. simpl. destruct (IH Ht) as [-> ->]. auto.
Qed.

Lemma no_messages_of_missing_session sessionId d :
  integrity d = true -> Db.references_session sessionId d = false ->
  existsb (fun m => m_session_id m =? sessionId) (messages d) = false.
Proof.
  intros H Hmiss. apply not_true_is_false. intros Hx.
  apply existsb_exists in Hx as (m & Hin & Hm). apply Z.eqb_eq in Hm.
  unfold integrity in H. apply andb_true_iff in H as [_ H].
  rewrite forallb_forall in H. specialize (H m Hin).
  rewrite Hm in H. congruence.
Qed.



(** C10. The session a create request yields carries the title "New
    Chat" when the request has no title or the empty string as title,
    and the title as given when it is a non-empty string that fits the
    column; a title is used as given only if it is non-empty. The
    session belongs to the requested user and is the one row added. *)
Theorem create_session_title userId title w session w' :
  Api.create_session env userId title w = (Api.SessionOk session, w') ->
  (title = None \/ title = Some "" -> s_title session = "New Chat")
  /\ (forall t, title = Some t -> t <> "" -> (String.length t <= 100)%nat ->
                s_title session = t)
  /\ (forall t, title = Some t -> s_title session = t -> t <> "")
  /\ s_user_id session = userId
  /\ sessions (db w') = sessions (db w) ++ [session].
Proof.
  unfold Api.create_session, Api.try_catch, bind, Db.createSession. intros H.
  destruct (Db.sql env _ _ w) as [[row|e] w1] eqn:E; [|discriminate].
  inversion H; subst; clear H.
  apply sql_resolved in E as (_ & _ & d & Hrun & ->).
  unfold Db.insert_session in Hrun.
  destruct (Db.varchar 100 (Api.title_or_default title)) as [stored|] eqn:Ev;
    [|discriminate].
  destruct (Db.serial_max <=? sessions_seq (db w)); [discriminate|].
  destruct (Db.references_user userId (db w)); [|discriminate].
  inversion Hrun; subst; clear Hrun. simpl.
  assert (Hdefault : forall t, title = None \/ title = Some t -> t = "" ->
                               stored = "New Chat").
  { intros t [-> | ->] Ht; [|subst t]; vm_compute in Ev; congruence. }
  repeat split.
  - intros [Hn | He]; [apply (Hdefault ""); auto | apply (Hdefault ""); auto].
  - intros t -> Hne Hlen. unfold Api.title_or_default, Js.truthy in Ev.
    destruct (String.eqb_spec t ""); [contradiction|]. simpl in Ev.
    rewrite (varchar_fits _ _ Hlen) in Ev. congruence.
  - intros t Ht Hst Hempty. rewrite Hempty in Ht, Hst.
    rewrite (Hdefault "" (or_intror Ht) eq_refl) in Hst. discriminate.
Qed.

(** The create request does yield a session when the store is reachable,
    the user exists (or none is given) and the title fits. *)
Lemma create_session_up userId title w :
  store_up env (tick w) = true ->
  Db.int4_or_null userId = true ->
  Db.references_user userId (db w) = true ->
  Db.text (Api.title_or_default title) = true ->
  (String.length (Api.title_or_default title) <= 100)%nat ->
  sessions_seq (db w) < Db.serial_max ->
  fst (Api.create_session env userId title w)
  = Api.SessionOk (mkSession (sessions_seq (db w) + 1) userId
                     (Api.title_or_default title) (clock env (tick w))).
Proof.
  intros Hup Hid Hfk Htext Hlen Hseq.
  unfold Api.create_session, Api.try_catch, bind, Db.createSession, Db.sql,
    Db.insert_session.
  rewrite Hup, Hid, Htext, (varchar_fits _ _ Hlen), Hfk. simpl.
  destruct (Z.leb_spec Db.serial_max (sessions_seq (db w))); [lia|].
  reflexivity.
Qed.

End Tolerance.

(* ================================================================== *)
(** * The properties at work on concrete runs *)

(** ** Runs on which the properties above apply *)

Lemma chat_blank_message_rejected_witness :
  Api.chat fair_weather 1 (Some "   ") (new_session fair_weather)
  = (Api.Failure "Message cannot be empty", new_session fair_weather).
Proof.
  apply (chat_blank_message_rejected fair_weather 1 "   " (new_session fair_weather)).
  reflexivity.
Defined.

Lemma chat_title_rule_witness :
  map s_title
    (sessions (db (snd (Api.chat fair_weather 1 (Some "Hello") (new_session fair_weather)))))
  = ["Hello"].
Proof.
  rewrite (chat_title_rule fair_weather 1 "Hello" (new_session fair_weather)
             _ _ (surjective_pairing _)).
  reflexivity.
Defined.

Lemma chat_rename_failure_witness :
  fst (Api.chat store_blip 1 (Some "Hello") (new_session store_blip))
  = Api.Failure "Failed to process message".
Proof.
  edestruct (chat_rename_failure_fails_turn store_blip 1 "Hello" (new_session store_blip))
    as [H _];
    [ reflexivity | reflexivity | reflexivity | reflexivity | reflexivity
    | reflexivity | reflexivity | rewrite H; reflexivity ].
Defined.

Lemma chat_provider_failure_witness :
  fst (Api.chat provider_down 1 (Some "Hello") (new_session provider_down))
  = Api.Failure "Failed to process message"
  /\ map m_content
       (messages (db (snd (Api.chat provider_down 1 (Some "Hello")
                             (new_session provider_down)))))
     = ["Hello"].
Proof.
  edestruct (chat_provider_failure_keeps_user_message
               provider_down 1 "Hello" (new_session provider_down))
    as (H & Hm & _);
    [ reflexivity | reflexivity | reflexivity | reflexivity | ].
  rewrite H. split; [reflexivity|]. cbn [snd]. rewrite Hm. reflexivity.
Defined.

Lemma chat_prompt_witness :
  sent (snd (Api.chat fair_weather 1 (Some "Bye") (after_hello fair_weather)))
  = [ [mkPrompt PromptSystem Ai.system_content;
       mkPrompt (PromptOf RoleUser) "Hello"];
      [mkPrompt PromptSystem Ai.system_content;
       mkPrompt (PromptOf RoleUser) "Hello";
       mkPrompt (PromptOf RoleAssistant) "Hi there";
       mkPrompt (PromptOf RoleUser) "Bye"] ].
Proof.
  edestruct (chat_prompt_when_append_is_latest
               fair_weather 1 "Bye" (after_hello fair_weather))
    as (prior & _ & _ & Hh & _ & Hsent);
    [ reflexivity | reflexivity | reflexivity | | ].
  - intros p Hp. vm_compute in Hp.
    destruct Hp as [<- | [<- | []]]; reflexivity.
  - rewrite Hsent.
    apply (f_equal (@removelast Message)) in Hh.
    rewrite removelast_last in Hh. rewrite <- Hh. reflexivity.
Defined.

Lemma appended_messages_witness :
  exists history,
    fst (Db.getSessionMessages coarse_clock 1
           (appends coarse_clock [(1, RoleUser, "a"); (1, RoleUser, "b")]
              (new_session coarse_clock)))
    = Resolved history
    /\ chronological history.
Proof.
  destruct (appended_messages_listed_chronologically coarse_clock
              [(1, RoleUser, "a"); (1, RoleUser, "b")] (new_session coarse_clock) 1)
    as (history & H & _ & Hc & _); [reflexivity | reflexivity |].
  exists history. split; assumption.
Defined.

Lemma deleteSession_cascades_witness :
  fst (Db.deleteSession fair_weather 1 (after_hello fair_weather)) = Resolved tt
  /\ messages (db (snd (Db.deleteSession fair_weather 1 (after_hello fair_weather)))) = []
  /\ sessions (db (snd (Db.deleteSession fair_weather 1 (after_hello fair_weather)))) = [].
Proof.
  destruct (deleteSession_cascades fair_weather 1 (after_hello fair_weather)
              _ _ eq_refl (surjective_pairing _))
    as [Hdone [(_ & _ & Hs & Hm & _) | (e & He & _)]].
  - split; [apply Hdone; reflexivity|]. rewrite Hs, Hm. split; reflexivity.
  - rewrite (Hdone eq_refl eq_refl) in He. discriminate He.
Defined.

Lemma login_idempotent_witness :
  fst (Api.login fair_weather (Some "  Alice ")
         (serve fair_weather (repeat (PostLogin (Some "  Alice ")) 3)
            (snd (Api.login fair_weather (Some "  Alice ") boot))))
  = Api.LoginOk (mkUser 1 "alice" 1001).
Proof.
  refine (proj1 (login_idempotent fair_weather "  Alice " boot _ _ 3 _ _)).
  - vm_compute. repeat constructor.
  - reflexivity.
Defined.


Lemma create_session_title_witness :
  exists session w',
    Api.create_session fair_weather (Some 1) (Some "")
      (serve fair_weather [PostLogin (Some "alice")] boot)
    = (Api.SessionOk session, w')
    /\ s_title session = "New Chat".
Proof.
  eexists _, _. split; [reflexivity|].
  refine (proj1 (create_session_title fair_weather (Some 1) (Some "")
                   (serve fair_weather [PostLogin (Some "alice")] boot) _ _ eq_refl)
            (or_intror eq_refl)).
Defined.

(** ** Runs on which the specification's wording does not hold *)

(** C1. A first turn whose provider call fails: the session held no
    message before the turn, and its title is not the message. *)
Lemma first_turn_without_reply_keeps_title :
  message_count 1 (new_session provider_down) = 0%nat
  /\ fst (Api.chat provider_down 1 (Some "Hello") (new_session provider_down))
     = Api.Failure "Failed to process message"
  /\ map s_title
       (sessions (db (snd (Api.chat provider_down 1 (Some "Hello")
                             (new_session provider_down)))))
     = ["New Chat"].
Proof. repeat split. Qed.

(** C2. A first turn on which everything succeeds but the rename, whose
    statement (number 6) does not reach the store: the turn answers with
    the failure envelope, not with the assistant message it stored. *)
Lemma rename_failure_fails_the_turn :
  map (store_up store_blip) [3; 4; 5; 6]%nat = [true; true; true; false]
  /\ fst (Api.chat store_blip 1 (Some "Hello") (new_session store_blip))
     = Api.Failure "Failed to process message"
  /\ map m_content
       (messages (db (snd (Api.chat store_blip 1 (Some "Hello")
                             (new_session store_blip)))))
     = ["Hello"; "Hi there"]
  /\ tick (snd (Api.chat store_blip 1 (Some "Hello") (new_session store_blip))) = 7%nat.
Proof. repeat split. Qed.

(** C5. Two appends that see the same creation time: the listing
    returns them with the later id first. *)
Lemma equal_times_not_in_id_order :
  exists history,
    fst (Db.getSessionMessages coarse_clock 1
           (appends coarse_clock [(1, RoleUser, "a"); (1, RoleUser, "b")]
              (new_session coarse_clock)))
    = Resolved history
    /\ map m_created_at history = [1000; 1000]
    /\ map m_id history = [2; 1]
    /\ ~ StronglySorted creation_then_id history.
Proof.
  eexists. split; [reflexivity|]. split; [reflexivity|]. split; [reflexivity|].
  intros Hs. inversion Hs as [|? ? _ Hall]; subst.
  inversion Hall as [|? ? Hab _]; subst.
  unfold creation_then_id in Hab. simpl in Hab. lia.
Qed.

(** C8. A turn whose append sees an earlier creation time than the
    messages the session holds: the prompt carries the new message
    twice and leaves out the assistant's reply. *)
Lemma stale_timestamp_prompt_repeats_new_message :
  map (fun m => (m_content m, m_created_at m))
      (Db.of_session 1 (messages (db (after_hello clock_set_back))))
  = [("Hello", 1003); ("Hi there", 1005)]
  /\ clock clock_set_back (tick (after_hello clock_set_back)) = 507
  /\ sent (snd (Api.chat clock_set_back 1 (Some "Bye") (after_hello clock_set_back)))
     = sent (after_hello clock_set_back)
       ++ [[mkPrompt PromptSystem Ai.system_content;
            mkPrompt (PromptOf RoleUser) "Bye";
            mkPrompt (PromptOf RoleUser) "Hello";
            mkPrompt (PromptOf RoleUser) "Bye"]].
Proof. repeat split. Qed.


(* ================================================================== *)
(** * Further properties of the backend *)

(** ** Stable properties hold in every world the server reaches *)

Section Preservation.

Variable env : Env.
Variable I : World -> Prop.
Hypothesis I_stable : Stable env I.

Lemma ret_preserves {A : Type} (a : A) : preserves I (ret a).
Proof. intros w H. exact H. Qed.

Lemma bind_preserves {A B : Type} (m : Async A) (f : A -> Async B) :
  preserves I m -> (forall a, preserves I (f a)) -> preserves I (bind m f).
Proof.
  intros Hm Hf w H. unfold bind. specialize (Hm w H).
  destruct (m w) as [[a|e] w1]; simpl in *; [apply Hf; exact Hm | exact Hm].
Qed.

Lemma sql_preserves {A : Type} (ok : bool) (run : Z -> (Z -> Z) -> Db.Stmt A) :
  (forall w, I w ->
     I (mkWorld (snd (run (clock env (tick w)) (tie_rank env (tick w)) (db w)))
                (S (tick w)) (sent w))) ->
  preserves I (Db.sql env ok run).
Proof.
  intros Hrun w H. unfold Db.sql.
  destruct (store_up env (tick w)); simpl;
    [|apply (stable_tick _ _ I_stable); exact H].
  destruct ok; simpl; [|apply (stable_tick _ _ I_stable); exact H].
  specialize (Hrun w H).
  destruct (run _ _ _) as [[e|a] d]; simpl in *; exact Hrun.
Qed.

Lemma generateAIResponse_preserves userMessage history :
  preserves I (Ai.generateAIResponse env userMessage history).
Proof.
  intros w H. unfold Ai.generateAIResponse.
  destruct (complete env _ _); simpl; apply (stable_sent _ _ I_stable); exact H.
Qed.

Lemma try_catch_preserves (body : Async Api.Response) (error : string) w :
  preserves I body -> I w -> I (snd (Api.try_catch body error w)).
Proof.
  intros Hb H. unfold Api.try_catch. specialize (Hb w H).
  destruct (body w) as [[r|e] w1]; simpl in *; exact Hb.
Qed.

Ltac stable_step :=
  first
    [ apply ret_preserves
    | apply generateAIResponse_preserves
    | apply bind_preserves; [|intros ?]
    | apply sql_preserves; intros ? ?;
      first [ apply (stable_tick _ _ I_stable)
            | apply (stable_insert_user _ _ I_stable)
            | apply (stable_insert_session _ _ I_stable)
            | apply (stable_update_title _ _ I_stable)
            | apply (stable_delete_session _ _ I_stable)
            | apply (stable_insert_message _ _ I_stable)
            | apply (stable_delete_messages _ _ I_stable) ]; assumption ].

Lemma getOrCreateUser_preserves username : preserves I (Db.getOrCreateUser env username).
Proof.
  unfold Db.getOrCreateUser. apply bind_preserves; [stable_step|].
  intros [|row rest]; repeat stable_step.
Qed.

Lemma saveMessage_preserves sessionId role content :
  preserves I (Db.saveMessage env sessionId role content).
Proof. unfold Db.saveMessage. stable_step. Qed.

Lemma updateSessionTitle_preserves sessionId title :
  preserves I (Db.updateSessionTitle env sessionId title).
Proof. unfold Db.updateSessionTitle. stable_step. Qed.

Lemma handle_preserves (r : Request) (w : World) : I w -> I (snd (handle env r w)).
Proof.
  intros H. destruct r; simpl; apply try_catch_preserves; try exact H.
  - destruct username as [username|]; [|stable_step].
    destruct (negb (Js.truthy username) || _); [stable_step|].
    apply bind_preserves; [apply getOrCreateUser_preserves | intros ?; stable_step].
  - unfold Db.getUserSessions. repeat stable_step.
  - unfold Db.createSession. repeat stable_step.
  - unfold Db.deleteSession. repeat stable_step.
  - unfold Db.getSessionMessages. repeat stable_step.
  - destruct message as [message|]; [|stable_step].
    destruct (negb (Js.truthy (Js.trim message))); [stable_step|].
    apply bind_preserves; [apply saveMessage_preserves | intros _].
    apply bind_preserves; [unfold Db.getSessionMessages; stable_step | intros history].
    apply bind_preserves; [stable_step | intros text].
    apply bind_preserves; [apply saveMessage_preserves | intros reply].
    apply bind_preserves; [|intros ?; stable_step].
    destruct (List.length history <=? 1)%nat;
      [apply updateSessionTitle_preserves | stable_step].
  - unfold Db.clearSessionMessages. repeat stable_step.
Qed.

Lemma serve_preserves (rs : list Request) (w : World) : I w -> I (serve env rs w).
Proof.
  revert w. induction rs as [|r rs IH]; intros w H; simpl; [exact H|].
  apply IH, handle_preserves, H.
Qed.

End Preservation.

(** ** Keys, column sizes and creation times *)

Lemma dated_later (ts : list Z) (a b : Z) : dated ts a -> a <= b -> dated ts b.
Proof.
  intros [Hs Hb] Hab. split; [exact Hs|].
  eapply Forall_impl; [|exact Hb]. simpl. intros t Ht. lia.
Qed.

Lemma dated_snoc (ts : list Z) (now later : Z) :
  dated ts now -> now < later -> dated (ts ++ [now]) later.
Proof.
  intros [Hs Hb] Hlt. split.
  - clear Hlt. induction ts as [|t ts IH]; simpl.
    + repeat constructor.
    + inversion Hs as [|? ? Hs' Ht]; subst. inversion Hb as [|? ? Htn Hb']; subst.
      constructor; [apply IH; assumption|].
      apply Forall_app. split; [exact Ht|]. repeat constructor. exact Htn.
  - apply Forall_app. split.
    + eapply Forall_impl; [|exact Hb]. simpl. intros t Ht. lia.
    + repeat constructor. exact Hlt.
Qed.

Lemma dated_filter {A : Type} (f : A -> Z) (p : A -> bool) (l : list A) (now : Z) :
  dated (map f l) now -> dated (map f (filter p l)) now.
Proof.
  intros [Hs Hb]. split.
  - induction l as [|x t IH]; simpl; [constructor|].
    simpl in Hs, Hb.
    inversion Hs as [|? ? Hs' Hx]; subst. inversion Hb as [|? ? _ Hb']; subst.
    destruct (p x); simpl; [|apply IH; assumption].
    constructor; [apply IH; assumption|].
    rewrite Forall_forall in *. intros y Hy.
    apply in_map_iff in Hy as (z & <- & Hz). apply filter_In in Hz as [Hz _].
    apply Hx. apply in_map. exact Hz.
  - rewrite Forall_forall in *. intros y Hy.
    apply in_map_iff in Hy as (z & <- & Hz). apply filter_In in Hz as [Hz _].
    apply Hb. apply in_map. exact Hz.
Qed.

Lemma ascending_dated (ids : list Z) (last : Z) :
  ascending ids last <-> dated ids (last + 1).
Proof.
  unfold ascending, dated. split; intros [Hs Hb]; (split; [exact Hs|]);
    (eapply Forall_impl; [|exact Hb]); simpl; intros; lia.
Qed.

Lemma ascending_later (ids : list Z) (a b : Z) :
  ascending ids a -> a <= b -> ascending ids b.
Proof.
  rewrite !ascending_dated. intros H Hab. eapply dated_later; [exact H | lia].
Qed.

Lemma ascending_snoc (ids : list Z) (last : Z) :
  ascending ids last -> ascending (ids ++ [last + 1]) (last + 1).
Proof.
  rewrite !ascending_dated. intros H. apply dated_snoc; [exact H | lia].
Qed.

Lemma ascending_filter {A : Type} (f : A -> Z) (p : A -> bool) (l : list A) (last : Z) :
  ascending (map f l) last -> ascending (map f (filter p l)) last.
Proof. rewrite !ascending_dated. apply dated_filter. Qed.

Lemma ascending_NoDup (ids : list Z) (last : Z) : ascending ids last -> NoDup ids.
Proof.
  intros [Hs _]. induction Hs as [|x t Hs IH Hx]; constructor; [|exact IH].
  intros Hin. rewrite Forall_forall in Hx. specialize (Hx x Hin). lia.
Qed.

Lemma map_set_title {A : Type} (f : Session -> A) sessionId title (ss : list Session) :
  (forall s, f (Db.set_title sessionId title s) = f s) ->
  map f (map (Db.set_title sessionId title) ss) = map f ss.
Proof. intros H. rewrite map_map. apply map_ext. exact H. Qed.

Lemma set_title_created_at sessionId title s :
  s_created_at (Db.set_title sessionId title s) = s_created_at s.
Proof. unfold Db.set_title. destruct (s_id s =? sessionId); reflexivity. Qed.

Lemma substring_length_le (n m : nat) (s : string) :
  (String.length (String.substring n m s) <= m)%nat.
Proof.
  revert n m. induction s as [|c s IH]; intros [|n] [|m]; simpl; try lia.
  - specialize (IH 0%nat m). lia.
  - apply IH.
  - apply IH.
Qed.

Lemma varchar_length (n : nat) (s t : string) :
  Db.varchar n s = Some t -> (String.length t <= n)%nat.
Proof.
  unfold Db.varchar.
  destruct (Nat.leb_spec (String.length s) n) as [Hle|Hgt].
  - intros H. inversion H; subst. exact Hle.
  - destruct (Db.all_spaces _); [|discriminate].
    intros H. inversion H; subst. apply substring_length_le.
Qed.

Section StableProperties.

Variable env : Env.

Lemma keyed_stable : Stable env keyed.
Proof.
  assert (Hkeep : forall ids a b, ascending ids a -> b = a \/ b = a + 1 ->
                                  ascending ids b).
  { intros ids a b H Hb. apply (ascending_later _ _ _ H). lia. }
  constructor; unfold keyed; simpl.
  - intros w _ H. exact H.
  - intros w H. exact H.
  - intros w username (Hu & Hs & Hm). unfold Db.insert_user.
    destruct (Db.varchar 50 username) as [name|]; simpl; [|auto].
    destruct (Db.serial_max <=? users_seq (db w)); simpl; [auto|].
    destruct (existsb _ (users (db w))); simpl.
    + split; [eapply Hkeep; eauto | auto].
    + rewrite map_app. simpl. split; [apply ascending_snoc; exact Hu | auto].
  - intros w userId title (Hu & Hs & Hm). unfold Db.insert_session.
    destruct (Db.varchar 100 title) as [t|]; simpl; [|auto].
    destruct (Db.serial_max <=? sessions_seq (db w)); simpl; [auto|].
    destruct (Db.references_user userId (db w)); simpl.
    + rewrite map_app. simpl.
      split; [exact Hu | split; [apply ascending_snoc; exact Hs | exact Hm]].
    + split; [exact Hu | split; [eapply Hkeep; eauto | exact Hm]].
  - intros w sessionId title (Hu & Hs & Hm). unfold Db.update_title.
    destruct (Db.varchar 100 title) as [t|]; simpl; [|auto].
    rewrite (map_set_title s_id) by apply set_title_id. auto.
  - intros w sessionId (Hu & Hs & Hm).
    split; [exact Hu | split; apply ascending_filter; assumption].
  - intros w sessionId role content (Hu & Hs & Hm). unfold Db.insert_message.
    destruct (Db.serial_max <=? messages_seq (db w)); simpl; [auto|].
    destruct (Db.references_session sessionId (db w)); simpl.
    + rewrite map_app. simpl.
      split; [exact Hu | split; [exact Hs | apply ascending_snoc; exact Hm]].
    + split; [exact Hu | split; [exact Hs | eapply Hkeep; eauto]].
  - intros w sessionId (Hu & Hs & Hm).
    split; [exact Hu | split; [exact Hs | apply ascending_filter; exact Hm]].
Qed.

Lemma sized_stable : Stable env sized.
Proof.
  constructor; unfold sized; simpl.
  - intros w _ H. exact H.
  - intros w H. exact H.
  - intros w username (Hu & Hs). unfold Db.insert_user.
    destruct (Db.varchar 50 username) as [name|] eqn:Ev; simpl; [|auto].
    destruct (Db.serial_max <=? users_seq (db w)); simpl; [auto|].
    destruct (existsb _ (users (db w))); simpl; [auto|].
    split; [|exact Hs]. apply Forall_app. split; [exact Hu|].
    constructor; [|constructor]. simpl. eapply varchar_length. exact Ev.
  - intros w userId title (Hu & Hs). unfold Db.insert_session.
    destruct (Db.varchar 100 title) as [t|] eqn:Ev; simpl; [|auto].
    destruct (Db.serial_max <=? sessions_seq (db w)); simpl; [auto|].
    destruct (Db.references_user userId (db w)); simpl; [|auto].
    split; [exact Hu|]. apply Forall_app. split; [exact Hs|].
    constructor; [|constructor]. simpl. eapply varchar_length. exact Ev.
  - intros w sessionId title (Hu & Hs). unfold Db.update_title.
    destruct (Db.varchar 100 title) as [t|] eqn:Ev; simpl; [|auto].
    split; [exact Hu|]. rewrite Forall_forall in *. intros s Hin.
    apply in_map_iff in Hin as (s0 & <- & Hin). unfold Db.set_title.
    destruct (s_id s0 =? sessionId); simpl;
      [eapply varchar_length; exact Ev | apply Hs; exact Hin].
  - intros w sessionId (Hu & Hs). split; [exact Hu|].
    rewrite Forall_forall in *. intros s Hin. apply filter_In in Hin as [Hin _]. auto.
  - intros w sessionId role content H. unfold Db.insert_message.
    destruct (Db.serial_max <=? messages_seq (db w)); simpl; [auto|].
    destruct (Db.references_session sessionId (db w)); simpl; auto.
  - intros w sessionId H. exact H.
Qed.

Lemma retired_stable (id : Z) : Stable env (retired id).
Proof.
  constructor; unfold retired, Db.references_session; simpl.
  - intros w _ H. exact H.
  - intros w H. exact H.
  - intros w username H. unfold Db.insert_user.
    destruct (Db.varchar 50 username) as [name|]; simpl; [|auto].
    destruct (Db.serial_max <=? users_seq (db w)); simpl; [auto|].
    destruct (existsb _ (users (db w))); simpl; auto.
  - intros w userId title (Hno & Hle). unfold Db.insert_session.
    destruct (Db.varchar 100 title) as [t|]; simpl; [|auto].
    destruct (Db.serial_max <=? sessions_seq (db w)); simpl; [auto|].
    destruct (Db.references_user userId (db w)); simpl.
    + split; [|lia]. rewrite existsb_app, Hno. simpl.
      rewrite orb_false_r. apply Z.eqb_neq. lia.
    + split; [exact Hno | lia].
  - intros w sessionId title (Hno & Hle). unfold Db.update_title.
    destruct (Db.varchar 100 title) as [t|]; simpl; [|auto].
    split; [|exact Hle]. rewrite <- Hno.
    apply (references_session_ids
             (db w)
             (mkDatabase (users (db w))
                (map (Db.set_title sessionId t) (sessions (db w))) (messages (db w))
                (users_seq (db w)) (sessions_seq (db w)) (messages_seq (db w))) id).
    simpl. apply map_set_title, set_title_id.
  - intros w sessionId (Hno & Hle). split; [|exact Hle].
    apply not_true_is_false. intros Hx.
    apply existsb_exists in Hx as (s & Hin & Hs).
    apply filter_In in Hin as [Hin _].
    assert (existsb (fun s0 => s_id s0 =? id) (sessions (db w)) = true)
      by (apply existsb_exists; eauto).
    congruence.
  - intros w sessionId role content H. unfold Db.insert_message.
    destruct (Db.serial_max <=? messages_seq (db w)); simpl; [auto|].
    destruct (Db.references_session sessionId (db w)); simpl; auto.
  - intros w sessionId H. exact H.
Qed.

Hypothesis clock_ticks : ticking env.

Lemma timed_stable : Stable env (timed env).
Proof.
  assert (Hnext : forall n ts, dated ts (clock env n) -> dated ts (clock env (S n))).
  { intros n ts H. apply (dated_later _ _ _ H). specialize (clock_ticks n). lia. }
  assert (Hadd : forall n ts, dated ts (clock env n) ->
                              dated (ts ++ [clock env n]) (clock env (S n))).
  { intros n ts H. apply dated_snoc; [exact H | apply clock_ticks]. }
  constructor; unfold timed; simpl.
  - intros w _ H. exact H.
  - intros w [Hs Hm]. auto.
  - intros w username [Hs Hm]. unfold Db.insert_user.
    destruct (Db.varchar 50 username) as [name|]; simpl; [|auto].
    destruct (Db.serial_max <=? users_seq (db w)); simpl; [auto|].
    destruct (existsb _ (users (db w))); simpl; auto.
  - intros w userId title [Hs Hm]. unfold Db.insert_session.
    destruct (Db.varchar 100 title) as [t|]; simpl; [|auto].
    destruct (Db.serial_max <=? sessions_seq (db w)); simpl; [auto|].
    destruct (Db.references_user userId (db w)); simpl; [|auto].
    rewrite map_app. simpl. auto.
  - intros w sessionId title [Hs Hm]. unfold Db.update_title.
    destruct (Db.varchar 100 title) as [t|]; simpl; [|auto].
    rewrite (map_set_title s_created_at) by apply set_title_created_at. auto.
  - intros w sessionId [Hs Hm]. split; apply dated_filter; auto.
  - intros w sessionId role content [Hs Hm]. unfold Db.insert_message.
    destruct (Db.serial_max <=? messages_seq (db w)); simpl; [auto|].
    destruct (Db.references_session sessionId (db w)); simpl; [|auto].
    rewrite map_app. simpl. auto.
  - intros w sessionId [Hs Hm]. split; [auto | apply dated_filter; auto].
Qed.

End StableProperties.

Lemma boot_keyed : keyed boot.
Proof. repeat split; constructor. Qed.

Lemma boot_sized : sized boot.
Proof. split; constructor. Qed.

Lemma boot_timed (env : Env) : timed env boot.
Proof. repeat split; constructor. Qed.

(** ** The tables of a served world *)

Lemma distinct_NoDup (l : list string) : distinct l = true -> NoDup l.
Proof.
  induction l as [|x t IH]; simpl; intros H; [constructor|].
  apply andb_true_iff in H as [Hx Ht]. constructor; [|apply IH; exact Ht].
  intros Hin. apply negb_true_iff in Hx.
  assert (existsb (String.eqb x) t = true)
    by (apply existsb_exists; exists x; split; [exact Hin | apply String.eqb_refl]).
  congruence.
Qed.

(** X1. Whatever requests the server has served since it started on
    empty tables, the schema's constraints hold: usernames are pairwise
    distinct, every session that names a user names a stored one (a
    session created without a user id has none), and every message's
    session exists. *)
Theorem served_worlds_keep_constraints (env : Env) (rs : list Request) :
  let d := db (serve env rs boot) in
  NoDup (map u_username (users d))
  /\ (forall s u, In s (sessions d) -> s_user_id s = Some u ->
                  exists owner, In owner (users d) /\ u_id owner = u)
  /\ (forall m, In m (messages d) ->
                exists s, In s (sessions d) /\ s_id s = m_session_id m).
Proof.
  intros d.
  pose proof (serve_integrity env rs boot boot_integrity) as H. fold d in H.
  unfold integrity in H.
  apply andb_true_iff in H as [H Hm]. apply andb_true_iff in H as [Hu Hs].
  split; [apply distinct_NoDup; exact Hu|]. split.
  - intros s u Hin Hsu. rewrite forallb_forall in Hs. specialize (Hs s Hin).
    unfold Db.references_user in Hs. rewrite Hsu in Hs.
    apply existsb_exists in Hs as (owner & Ho & Hid).
    exists owner. split; [exact Ho | apply Z.eqb_eq; exact Hid].
  - intros m Hin. rewrite forallb_forall in Hm. specialize (Hm m Hin).
    unfold Db.references_session in Hm.
    apply existsb_exists in Hm as (s & Hs_in & Hid).
    exists s. split; [exact Hs_in | apply Z.eqb_eq; exact Hid].
Qed.

(** X2. In every world the server reaches, the ids of each table are
    pairwise different and increase in insertion order, and none
    exceeds the last value of the table's sequence. *)
Theorem served_worlds_have_fresh_ids (env : Env) (rs : list Request) :
  let d := db (serve env rs boot) in
  (NoDup (map u_id (users d)) /\ NoDup (map s_id (sessions d))
   /\ NoDup (map m_id (messages d)))
  /\ (StronglySorted Z.lt (map u_id (users d))
      /\ StronglySorted Z.lt (map s_id (sessions d))
      /\ StronglySorted Z.lt (map m_id (messages d)))
  /\ (Forall (fun id => id <= users_seq d) (map u_id (users d))
      /\ Forall (fun id => id <= sessions_seq d) (map s_id (sessions d))
      /\ Forall (fun id => id <= messages_seq d) (map m_id (messages d))).
Proof.
  destruct (serve_preserves env keyed (keyed_stable env) rs boot boot_keyed)
    as (Hu & Hs & Hm).
  simpl. split; [|split].
  - split; [|split]; eapply ascending_NoDup; eassumption.
  - split; [exact (proj1 Hu) | split; [exact (proj1 Hs) | exact (proj1 Hm)]].
  - split; [exact (proj2 Hu) | split; [exact (proj2 Hs) | exact (proj2 Hm)]].
Qed.

(** ** Logging in *)

Section Login.

Variable env : Env.

(** X3. A login without a username, or with one that has fewer than two
    characters once trimmed, is answered "Username must be at least 2
    characters" and reaches neither the store nor the provider. *)
Theorem login_rejects_short_username username w :
  match username with
  | Some name => (String.length (Js.trim name) < 2)%nat
  | None => True
  end ->
  Api.login env username w
  = (Api.Failure "Username must be at least 2 characters", w).
Proof.
  intros H. unfold Api.login, Api.try_catch.
  destruct username as [name|]; [|reflexivity].
  apply Nat.ltb_lt in H. rewrite H, orb_true_r. reflexivity.
Qed.

Lemma toLowerCase_length (s : string) :
  String.length (Js.toLowerCase s) = String.length s.
Proof. induction s as [|c s IH]; simpl; congruence. Qed.

Lemma login_ok_valid username w user w1 :
  Api.login env (Some username) w = (Api.LoginOk user, w1) ->
  (2 <= String.length (Js.trim username))%nat.
Proof.
  unfold Api.login, Api.try_catch. intros H.
  destruct (Nat.ltb_spec (String.length (Js.trim username)) 2) as [Hlt|Hge];
    [|exact Hge].
  rewrite orb_true_r in H. discriminate.
Qed.

(** X4. Usernames are compared after trimming and lower-casing: once a
    login has answered with a user, a login under any spelling that has
    at least two characters once trimmed and the same trimmed lower-case
    form answers with that same user and writes nothing (or fails as a
    whole when the store is out of reach). *)
Theorem login_ignores_case_and_padding first again w user w1 :
  Api.login env (Some first) w = (Api.LoginOk user, w1) ->
  (2 <= String.length (Js.trim again))%nat ->
  Js.toLowerCase (Js.trim again) = Js.toLowerCase (Js.trim first) ->
  Api.login env (Some again) w1
  = (if store_up env (tick w1) then Api.LoginOk user
     else Api.Failure "Failed to login",
     mkWorld (db w1) (S (tick w1)) (sent w1)).
Proof.
  intros Hfirst Hlen Hsame.
  apply login_ok_row in Hfirst as (Htext & _ & rest & Hrow).
  rewrite <- Hsame in Htext, Hrow.
  exact (login_known_user env again user rest w1 Hlen Htext Hrow).
Qed.

(** X5. The user a login answers with carries the trimmed, lower-cased
    username and is stored; the login either found that row and wrote
    nothing, or added it as the one new row, under a username no stored
    user had. Sessions and messages are never touched. *)
Theorem login_answer username w user w1 :
  Api.login env (Some username) w = (Api.LoginOk user, w1) ->
  u_username user = Js.toLowerCase (Js.trim username)
  /\ In user (users (db w1))
  /\ (users (db w1) = users (db w)
      \/ (users (db w1) = users (db w) ++ [user]
          /\ ~ In (u_username user) (map u_username (users (db w)))))
  /\ sessions (db w1) = sessions (db w)
  /\ messages (db w1) = messages (db w).
Proof.
  intros H.
  pose proof (login_ok_row env _ _ _ _ H) as (_ & _ & rest & Hrow).
  assert (Hin : In user (filter
            (fun u => (u_username u =? Js.toLowerCase (Js.trim username))%string)
            (users (db w1)))) by (rewrite Hrow; left; reflexivity).
  apply filter_In in Hin as [Hin Hname]. apply String.eqb_eq in Hname.
  split; [exact Hname|]. split; [exact Hin|].
  unfold Api.login, Api.try_catch in H.
  destruct (negb (Js.truthy username) || _); [discriminate|].
  set (name := Js.toLowerCase (Js.trim username)) in *.
  unfold Db.getOrCreateUser, bind in H.
  destruct (Db.sql env (Db.text name) (fun _ _ => Db.select_user name) w)
    as [[result|e] w0] eqn:E0; [|discriminate].
  apply sql_resolved in E0 as (_ & _ & d & Hrun & ->).
  unfold Db.select_user in Hrun. inversion Hrun; subst; clear Hrun.
  destruct (filter _ (users (db w))) as [|row others] eqn:Erows.
  - destruct (Db.sql env (Db.text name) (fun now _ => Db.insert_user now name) _)
      as [[row|e] w2] eqn:E2; [|discriminate].
    inversion H; subst; clear H.
    apply sql_resolved in E2 as (_ & _ & d & Hrun & ->). simpl in *.
    unfold Db.insert_user in Hrun.
    destruct (Db.varchar 50 name) as [stored|]; [|discriminate].
    destruct (Db.serial_max <=? users_seq (db w)); [discriminate|].
    destruct (existsb _ (users (db w))) eqn:Ex; [discriminate|].
    inversion Hrun; subst; clear Hrun. simpl in *.
    split; [|auto]. right. split; [reflexivity|].
    intros Hdup. apply in_map_iff in Hdup as (u & Hu & Huin).
    assert (existsb (fun u0 => (u_username u0 =? stored)%string) (users (db w)) = true).
    { apply existsb_exists. exists u. split; [exact Huin|].
      apply String.eqb_eq. exact Hu. }
    congruence.
  - inversion H; subst; clear H. simpl. auto.
Qed.

(** X6. A username of code units below 256 (each of them one character,
    in JavaScript and in the store alike) that is longer than 50
    characters once trimmed can never log in: in every world the server
    reaches, the login is answered "Failed to login" and the users table
    stays as it was. *)
Theorem login_refuses_long_username (rs : list Request) username :
  (50 < String.length (Js.trim username))%nat ->
  let w := serve env rs boot in
  fst (Api.login env (Some username) w) = Api.Failure "Failed to login"
  /\ users (db (snd (Api.login env (Some username) w))) = users (db w).
Proof.
  intros Hlong w.
  pose proof (serve_preserves env sized (sized_stable env) rs boot boot_sized)
    as [Hsized _].
  fold w in Hsized.
  set (name := Js.toLowerCase (Js.trim username)).
  assert (Hlen : (50 < String.length name)%nat)
    by (unfold name; rewrite toLowerCase_length; exact Hlong).
  assert (Hnone : filter (fun u => (u_username u =? name)%string) (users (db w)) = []).
  { apply filter_none. apply not_true_is_false. intros Hx.
    apply existsb_exists in Hx as (u & Hin & Hu). apply String.eqb_eq in Hu.
    rewrite Forall_forall in Hsized. specialize (Hsized u Hin). rewrite Hu in Hsized.
    lia. }
  assert (Hrefused : Db.varchar 50 name = None).
  { destruct (Db.varchar 50 name) as [stored|] eqn:Ev; [|reflexivity].
    pose proof (varchar_length _ _ _ Ev) as Hfit.
    apply varchar_unpadded in Ev; [|apply normalized_unpadded].
    subst stored. lia. }
  unfold Api.login, Api.try_catch.
  assert (Hvalid : negb (Js.truthy username)
                   || (String.length (Js.trim username) <? 2)%nat = false).
  { apply orb_false_iff. split.
    - destruct username; [simpl in Hlong; lia | reflexivity].
    - apply Nat.ltb_ge. lia. }
  rewrite Hvalid. fold name.
  unfold Db.getOrCreateUser, bind, Db.sql, Db.select_user.
  destruct (store_up env (tick w)); simpl; [|auto].
  destruct (Db.text name); simpl; [|auto].
  rewrite Hnone. simpl.
  destruct (store_up env (S (tick w))); simpl; [|auto].
  unfold Db.insert_user. rewrite Hrefused. simpl. auto.
Qed.

End Login.

(** ** Sorting rows that are already in order *)

Section OrderByInOrder.

Context {A : Type} (le : A -> A -> bool).

(** Rows that arrive in the requested order are returned as they are. *)
Lemma order_by_in_order (l : list A) :
  StronglySorted (fun a b => le a b = true) l -> Db.order_by le l = l.
Proof.
  induction 1 as [|x t Hs IH Hx]; [reflexivity|].
  change (Db.order_by le (x :: t)) with (Db.insert_row le x (Db.order_by le t)).
  rewrite IH.
  destruct t as [|y t']; [reflexivity|].
  simpl. inversion Hx as [|? ? Hxy _]; subst. rewrite Hxy. reflexivity.
Qed.

Lemma insert_row_last (x : A) (l : list A) :
  (forall y, In y l -> le x y = false) -> Db.insert_row le x l = l ++ [x].
Proof.
  induction l as [|y t IH]; intros H; simpl; [reflexivity|].
  rewrite (H y) by (left; reflexivity).
  rewrite IH by (intros z Hz; apply H; right; exact Hz). reflexivity.
Qed.

(** Rows that arrive in the opposite order are returned reversed. *)
Lemma order_by_reversed (l : list A) :
  StronglySorted (fun a b => le a b = false) l -> Db.order_by le l = rev l.
Proof.
  induction 1 as [|x t Hs IH Hx]; [reflexivity|].
  change (Db.order_by le (x :: t)) with (Db.insert_row le x (Db.order_by le t)).
  rewrite IH. simpl.
  apply insert_row_last. intros y Hy. apply in_rev in Hy.
  rewrite Forall_forall in Hx. auto.
Qed.

End OrderByInOrder.

Lemma StronglySorted_map {A : Type} (f : A -> Z) (l : list A) :
  StronglySorted Z.lt (map f l) -> StronglySorted (fun a b => f a < f b) l.
Proof.
  induction l as [|x t IH]; simpl; intros H; [constructor|].
  inversion H as [|? ? Hs Hx]; subst. constructor; [apply IH; exact Hs|].
  rewrite Forall_forall in *. intros y Hy. apply Hx, in_map, Hy.
Qed.

Lemma created_at_desc_total rank a b :
  Db.created_at_desc rank a b = true \/ Db.created_at_desc rank b a = true.
Proof.
  unfold Db.created_at_desc.
  destruct (Z.ltb_spec (s_created_at b) (s_created_at a)); simpl; auto.
  destruct (Z.ltb_spec (s_created_at a) (s_created_at b)); simpl; auto.
  assert (E : s_created_at a = s_created_at b) by lia.
  rewrite E, Z.eqb_refl. simpl.
  destruct (Z.leb_spec (rank (s_id a)) (rank (s_id b))); auto.
  right. apply Z.leb_le. lia.
Qed.

Lemma created_at_desc_trans rank a b c :
  Db.created_at_desc rank a b = true -> Db.created_at_desc rank b c = true ->
  Db.created_at_desc rank a c = true.
Proof.
  unfold Db.created_at_desc. intros H1 H2.
  apply orb_true_iff in H1. apply orb_true_iff in H2. apply orb_true_iff.
  rewrite !andb_true_iff, !Z.ltb_lt, !Z.eqb_eq, !Z.leb_le in *. lia.
Qed.

(** ** Sessions *)

Section Sessions.

Variable env : Env.

(** X7. Creating a session for a user id that no user has stores
    nothing: the request is answered "Failed to create session" and the
    sessions table stays as it was. *)
Theorem create_session_for_unknown_user_fails userId title w :
  existsb (fun u => u_id u =? userId) (users (db w)) = false ->
  fst (Api.create_session env (Some userId) title w)
  = Api.Failure "Failed to create session"
  /\ sessions (db (snd (Api.create_session env (Some userId) title w)))
     = sessions (db w).
Proof.
  intros Hmiss.
  unfold Api.create_session, Api.try_catch, bind, Db.createSession, Db.sql.
  destruct (store_up env (tick w)); simpl; [|auto].
  destruct (Db.int4 userId && Db.text (Api.title_or_default title)); simpl; [|auto].
  unfold Db.insert_session.
  destruct (Db.varchar 100 (Api.title_or_default title)); simpl; [|auto].
  destruct (Db.serial_max <=? sessions_seq (db w)); simpl; [auto|].
  rewrite Hmiss. simpl. auto.
Qed.

(** X8. Listing a user's sessions returns exactly the sessions that
    user owns, each once, in non-increasing creation-time order. *)
Theorem sessions_listed_newest_first userId w :
  store_up env (tick w) = true ->
  Db.int4 userId = true ->
  exists listed,
    fst (Api.list_sessions env userId w) = Api.SessionsOk listed
    /\ Permutation listed (of_user userId (sessions (db w)))
    /\ newest_first listed
    /\ Forall (fun s => s_user_id s = Some userId) listed.
Proof.
  intros Hup Hid.
  exists (Db.order_by (Db.created_at_desc (tie_rank env (tick w)))
            (of_user userId (sessions (db w)))).
  split; [|split; [|split]].
  - unfold Api.list_sessions, Api.try_catch, bind, Db.getUserSessions, Db.sql.
    rewrite Hup, Hid. reflexivity.
  - apply order_by_perm.
  - eapply StronglySorted_impl;
      [|apply order_by_sorted;
        [apply created_at_desc_total | apply created_at_desc_trans]].
    intros a b H. unfold Db.created_at_desc in H.
    apply orb_true_iff in H. rewrite andb_true_iff, Z.ltb_lt, Z.eqb_eq in H. lia.
  - eapply Permutation_Forall; [apply Permutation_sym, order_by_perm|].
    apply Forall_forall. intros s Hin. apply filter_In in Hin as [_ Hs].
    destruct (s_user_id s) as [u|]; [|discriminate].
    apply Z.eqb_eq in Hs. congruence.
Qed.

Hypothesis clock_ticks : ticking env.

(** X9. With a clock that moves forward between statements, a session
    that was just created comes first when its user's sessions are
    listed next, followed by the user's earlier sessions, latest
    created first. *)
Theorem new_session_listed_first (rs : list Request) userId title session w1 :
  Api.create_session env (Some userId) title (serve env rs boot)
  = (Api.SessionOk session, w1) ->
  store_up env (tick w1) = true ->
  fst (Api.list_sessions env userId w1)
  = Api.SessionsOk
      (session :: rev (of_user userId (sessions (db (serve env rs boot))))).
Proof.
  set (w := serve env rs boot). intros Hcreate Hup.
  assert (Htimed : timed env w1).
  { replace w1 with (snd (handle env (PostSession (Some userId) title) w))
      by (simpl; rewrite Hcreate; reflexivity).
    apply (handle_preserves env _ (timed_stable env clock_ticks)).
    apply (serve_preserves env _ (timed_stable env clock_ticks)), boot_timed. }
  destruct Htimed as [Hdated _].
  unfold Api.create_session, Api.try_catch, bind, Db.createSession in Hcreate.
  destruct (Db.sql env _ _ w) as [[row|e] w0] eqn:E; [|discriminate].
  inversion Hcreate; subst; clear Hcreate.
  apply sql_resolved in E as (_ & Hok & d & Hrun & ->).
  apply andb_true_iff in Hok as [Hid _]. simpl in Hid.
  unfold Db.insert_session in Hrun.
  destruct (Db.varchar 100 (Api.title_or_default title)) as [stored|]; [|discriminate].
  destruct (Db.serial_max <=? sessions_seq (db w)); [discriminate|].
  destruct (Db.references_user (Some userId) (db w)); [|discriminate].
  inversion Hrun; subst; clear Hrun. simpl in *.
  unfold Api.list_sessions, Api.try_catch, bind, Db.getUserSessions, Db.sql,
    Db.select_sessions.
  simpl. rewrite Hup, Hid. simpl. f_equal.
  fold (of_user userId (sessions (db w) ++
          [mkSession (sessions_seq (db w) + 1) (Some userId) stored
             (clock env (tick w))])).
  rewrite order_by_reversed.
  - unfold of_user. rewrite filter_app, rev_app_distr. simpl.
    rewrite Z.eqb_refl. reflexivity.
  - eapply StronglySorted_impl;
      [|apply StronglySorted_map; unfold of_user;
        eapply proj1, (dated_filter s_created_at), Hdated].
    intros a b Hab. unfold Db.created_at_desc. simpl in Hab.
    apply orb_false_iff. split; [apply Z.ltb_ge; lia|].
    apply andb_false_iff. left. apply Z.eqb_neq. lia.
Qed.

End Sessions.

(** ** Messages *)

Lemma of_session_other sessionId other (l : list Message) :
  other <> sessionId ->
  Db.of_session other (filter (fun m => negb (m_session_id m =? sessionId)) l)
  = Db.of_session other l.
Proof.
  intros Hne. unfold Db.of_session.
  induction l as [|m t IH]; simpl; [reflexivity|].
  destruct (m_session_id m =? sessionId) eqn:E; simpl.
  - apply Z.eqb_eq in E.
    destruct (Z.eqb_spec (m_session_id m) other); [congruence | exact IH].
  - rewrite IH. reflexivity.
Qed.

Section Messages.

Variable env : Env.

(** X10. When clearing a session succeeds, the session holds no message
    any more, every other session keeps its messages, in order, and no
    session is removed or changed. *)
Theorem clear_messages_empties_one_session sessionId w w' :
  Api.clear_messages env sessionId w = (Api.Success, w') ->
  message_count sessionId w' = 0%nat
  /\ (forall other, other <> sessionId ->
        Db.of_session other (messages (db w')) = Db.of_session other (messages (db w)))
  /\ sessions (db w') = sessions (db w)
  /\ users (db w') = users (db w).
Proof.
  unfold Api.clear_messages, Api.try_catch, bind, Db.clearSessionMessages.
  intros H.
  destruct (Db.sql env _ _ w) as [[[]|e] w1] eqn:E; [|discriminate].
  inversion H; subst; clear H.
  apply sql_resolved in E as (_ & _ & d & Hrun & ->).
  unfold Db.delete_messages in Hrun. inversion Hrun; subst; clear Hrun.
  unfold message_count. simpl. split; [|split; [|auto]].
  - rewrite of_session_removed. reflexivity.
  - intros other Hne. apply of_session_other. exact Hne.
Qed.

(** X11. Deleting a session, whether it succeeds or fails, leaves every
    other session as it was, with all its messages in order. *)
Theorem delete_session_spares_other_sessions sessionId w :
  let w' := snd (Api.delete_session env sessionId w) in
  filter (fun s => negb (s_id s =? sessionId)) (sessions (db w'))
  = filter (fun s => negb (s_id s =? sessionId)) (sessions (db w))
  /\ (forall other, other <> sessionId ->
        Db.of_session other (messages (db w')) = Db.of_session other (messages (db w)))
  /\ users (db w') = users (db w).
Proof.
  unfold Api.delete_session, Api.try_catch, bind, Db.deleteSession, Db.sql.
  destruct (store_up env (tick w)); simpl; [|auto].
  destruct (Db.int4 sessionId); simpl; [|auto].
  split; [|split; [|reflexivity]].
  - induction (sessions (db w)) as [|s t IH]; simpl; [reflexivity|].
    destruct (s_id s =? sessionId) eqn:E; simpl; [exact IH|].
    rewrite E, IH. reflexivity.
  - intros other Hne. unfold Db.of_session.
    induction (messages (db w)) as [|m t IH]; simpl; [reflexivity|].
    destruct (existsb _ _) eqn:Ex; simpl.
    + apply existsb_exists in Ex as (s & Hin & Hs).
      apply filter_In in Hin as [_ Hid].
      apply Z.eqb_eq in Hs. apply Z.eqb_eq in Hid.
      destruct (Z.eqb_spec (m_session_id m) other); [congruence | exact IH].
    + rewrite IH. reflexivity.
Qed.

Hypothesis clock_ticks : ticking env.

Lemma timed_session_in_order (w : World) sessionId rank :
  timed env w ->
  Db.order_by (Db.created_at_asc rank) (Db.of_session sessionId (messages (db w)))
  = Db.of_session sessionId (messages (db w)).
Proof.
  intros [_ Hdated]. apply order_by_in_order.
  eapply StronglySorted_impl;
    [|apply StronglySorted_map; unfold Db.of_session;
      eapply proj1, (dated_filter m_created_at), Hdated].
  intros a b Hab. unfold Db.created_at_asc. simpl in Hab.
  apply orb_true_iff. left. apply Z.ltb_lt. exact Hab.
Qed.

(** X12. With a clock that moves forward between statements, in every
    world the server reaches the messages of a session are listed in
    the order they were inserted: ids and creation times both increase
    down the list. *)
Theorem messages_listed_in_insertion_order (rs : list Request) sessionId :
  let w := serve env rs boot in
  store_up env (tick w) = true ->
  Db.int4 sessionId = true ->
  fst (Api.list_messages env sessionId w)
  = Api.MessagesOk (Db.of_session sessionId (messages (db w)))
  /\ StronglySorted Z.lt (map m_id (Db.of_session sessionId (messages (db w))))
  /\ StronglySorted Z.lt (map m_created_at (Db.of_session sessionId (messages (db w)))).
Proof.
  intros w Hup Hid.
  pose proof (serve_preserves env _ (timed_stable env clock_ticks) rs boot
                (boot_timed env)) as Htimed.
  pose proof (serve_preserves env keyed (keyed_stable env) rs boot boot_keyed)
    as (_ & _ & Hkeys).
  fold w in Htimed, Hkeys. split; [|split].
  - unfold Api.list_messages, Api.try_catch, bind.
    rewrite (getSessionMessages_up env _ _ Hup Hid).
    rewrite (timed_session_in_order w _ _ Htimed). reflexivity.
  - apply ascending_dated in Hkeys. unfold Db.of_session.
    eapply proj1, (dated_filter m_id), Hkeys.
  - destruct Htimed as [_ Hdated]. unfold Db.of_session.
    eapply proj1, (dated_filter m_created_at), Hdated.
Qed.

End Messages.

(** ** Chat turns, one after the other *)

Lemma filter_set_title sessionId title (ss : list Session) :
  filter (fun s => negb (s_id s =? sessionId)) (map (Db.set_title sessionId title) ss)
  = filter (fun s => negb (s_id s =? sessionId)) ss.
Proof.
  induction ss as [|s t IH]; simpl; [reflexivity|].
  rewrite set_title_id, IH. unfold Db.set_title.
  destruct (s_id s =? sessionId); reflexivity.
Qed.

Section Turns.

Variable env : Env.

(** The steps behind a turn that succeeded. *)
Lemma chat_ok_steps sessionId message w reply w' :
  Api.chat env sessionId (Some message) w = (Api.ChatOk reply, w') ->
  exists saved w1 history w2 text w3 w4,
    Db.saveMessage env sessionId RoleUser message w = (Resolved saved, w1)
    /\ Db.getSessionMessages env sessionId w1 = (Resolved history, w2)
    /\ Ai.generateAIResponse env message (Js.slice_0_m1 history) w2 = (Resolved text, w3)
    /\ Db.saveMessage env sessionId RoleAssistant text w3 = (Resolved reply, w4)
    /\ (if (List.length history <=? 1)%nat
        then Db.updateSessionTitle env sessionId (Js.substring_0 50 message) w4
             = (Resolved tt, w')
        else w' = w4).
Proof.
  unfold Api.chat, Api.try_catch, bind, ret. intros H.
  destruct (Js.truthy (Js.trim message)); simpl in H; [|discriminate].
  destruct (Db.saveMessage env sessionId RoleUser message w)
    as [[saved|e] w1] eqn:E1; [|discriminate].
  destruct (Db.getSessionMessages env sessionId w1)
    as [[history|e] w2] eqn:E2; [|discriminate].
  destruct (Ai.generateAIResponse env message (Js.slice_0_m1 history) w2)
    as [[text|e] w3] eqn:E3; [|discriminate].
  destruct (Db.saveMessage env sessionId RoleAssistant text w3)
    as [[saved'|e] w4] eqn:E4; [|discriminate].
  exists saved, w1, history, w2, text, w3, w4.
  destruct (List.length history <=? 1)%nat.
  - destruct (Db.updateSessionTitle env sessionId (Js.substring_0 50 message) w4)
      as [[[]|e] w5] eqn:E5; [|discriminate].
    inversion H; subst. auto.
  - inversion H; subst. auto.
Qed.

(** What a turn does to the tables, whatever its outcome. *)
Lemma chat_effect sessionId message w r w' :
  Api.chat env sessionId (Some message) w = (r, w') ->
  users (db w') = users (db w)
  /\ (exists added,
        messages (db w') = messages (db w) ++ added
        /\ Forall (fun x => m_session_id x = sessionId) added
        /\ (List.length added <= 2)%nat)
  /\ sessions (db w') =
       if is_chat_ok r && (message_count sessionId w =? 0)%nat
       then map (Db.set_title sessionId (Js.substring_0 50 message)) (sessions (db w))
       else sessions (db w).
Proof.
  unfold Api.chat, Api.try_catch, bind, ret. intros H.
  assert (Hnil : forall ms : list Message,
            exists added, ms = ms ++ added
              /\ Forall (fun x => m_session_id x = sessionId) added
              /\ (List.length added <= 2)%nat).
  { intros ms. exists []. rewrite app_nil_r. repeat split; [constructor | simpl; lia]. }
  destruct (Js.truthy (Js.trim message)); simpl in H;
    [|inversion H; subst; simpl; auto].
  destruct (Db.saveMessage env sessionId RoleUser message w)
    as [[saved|e] w1] eqn:E1.
  2: { inversion H; subst. simpl.
       apply saveMessage_rejected in E1 as (U1 & S1 & M1 & _).
       rewrite U1, S1, M1. auto. }
  destruct (Db.getSessionMessages env sessionId w1) as [[history|e] w2] eqn:E2;
    apply saveMessage_resolved in E1 as (Hsaved & _ & U1 & S1 & M1 & _).
  2: { inversion H; subst. simpl.
       apply getSessionMessages_rejected in E2 as [D2 _].
       rewrite D2, U1, S1, M1. split; [reflexivity|]. split; [|reflexivity].
       eexists [_]. split; [reflexivity|]. split; [|simpl; lia].
       repeat constructor. }
  assert (Hone : exists added,
            messages (db w1) = messages (db w) ++ added
            /\ Forall (fun x => m_session_id x = sessionId) added
            /\ (List.length added <= 2)%nat).
  { exists [saved]. split; [exact M1|]. split; [|simpl; lia].
    repeat constructor. rewrite Hsaved. reflexivity. }
  assert (Hcount : List.length history = S (message_count sessionId w)).
  { apply getSessionMessages_resolved in E2 as (-> & _ & _).
    rewrite order_by_length, M1. unfold message_count, Db.of_session.
    rewrite filter_app, length_app. simpl.
    rewrite Hsaved. simpl. rewrite Z.eqb_refl. simpl. lia. }
  apply getSessionMessages_resolved in E2 as (_ & D2 & _).
  destruct (Ai.generateAIResponse env message (Js.slice_0_m1 history) w2)
    as [[text|e] w3] eqn:E3.
  2: { inversion H; subst. simpl.
       apply generateAIResponse_rejected in E3 as (_ & _ & D3 & _).
       rewrite D3, D2, U1, S1. auto. }
  apply generateAIResponse_resolved in E3 as (_ & D3 & _).
  destruct (Db.saveMessage env sessionId RoleAssistant text w3)
    as [[reply|e] w4] eqn:E4.
  2: { inversion H; subst. simpl.
       apply saveMessage_rejected in E4 as (U4 & S4 & M4 & _).
       rewrite U4, S4, M4, D3, D2, U1, S1. auto. }
  apply saveMessage_resolved in E4 as (Hreply & _ & U4 & S4 & M4 & _).
  assert (Htwo : exists added,
            messages (db w4) = messages (db w) ++ added
            /\ Forall (fun x => m_session_id x = sessionId) added
            /\ (List.length added <= 2)%nat).
  { exists [saved; reply]. split; [|split; [|simpl; lia]].
    - rewrite M4, D3, D2, M1, <- app_assoc. reflexivity.
    - repeat constructor; [rewrite Hsaved | rewrite Hreply]; reflexivity. }
  assert (Husers : users (db w4) = users (db w)) by congruence.
  assert (Hsessions : sessions (db w4) = sessions (db w)) by congruence.
  rewrite Hcount in H.
  destruct (message_count sessionId w) as [|n]; simpl in H.
  - destruct (Db.updateSessionTitle env sessionId (Js.substring_0 50 message) w4)
      as [[[]|e] w5] eqn:E5; inversion H; subst; simpl.
    + apply updateSessionTitle_resolved in E5 as (U5 & S5 & M5 & _);
        [|pose proof (substring_0_length 50 message); lia].
      rewrite U5, S5, M5, Hsessions. auto.
    + apply updateSessionTitle_rejected in E5 as [D5 _]. rewrite D5. auto.
  - inversion H; subst. simpl. auto.
Qed.

(** X13. A turn that succeeds stores exactly two rows, after all the
    rows the table held: the raw user message and then the assistant
    message it answers with, both in the turn's session, with the next
    two ids. The turn called [generateText] once, with one prompt, and
    the assistant message carries the text that call returned. *)
Theorem chat_success_stores_exchange sessionId message w reply w' :
  Api.chat env sessionId (Some message) w = (Api.ChatOk reply, w') ->
  exists prompt,
    messages (db w')
    = messages (db w)
      ++ [mkMessage (messages_seq (db w) + 1) sessionId RoleUser message
            (clock env (tick w));
          reply]
    /\ m_id reply = messages_seq (db w) + 2
    /\ m_session_id reply = sessionId
    /\ m_role reply = RoleAssistant
    /\ sent w' = sent w ++ [prompt]
    /\ complete env (List.length (sent w)) prompt = Some (m_content reply).
Proof.
  intros H.
  apply chat_ok_steps in H
    as (saved & w1 & history & w2 & text & w3 & w4 & H1 & H2 & H3 & H4 & H5).
  exists (Ai.prompt_of message (Js.slice_0_m1 history)).
  pose proof H1 as H1'. apply sql_resolved in H1' as (_ & _ & d1 & Hrun1 & Hw1).
  unfold Db.insert_message in Hrun1.
  destruct (Db.serial_max <=? messages_seq (db w)); [discriminate|].
  destruct (Db.references_session sessionId (db w)); [|discriminate].
  inversion Hrun1; subst saved d1; clear Hrun1.
  apply saveMessage_resolved in H1 as (_ & _ & _ & _ & M1 & L1).
  apply getSessionMessages_resolved in H2 as (_ & D2 & L2).
  apply generateAIResponse_resolved in H3 as (Hanswer & D3 & L3).
  apply saveMessage_resolved in H4 as (Hreply & _ & _ & _ & M4 & L4).
  assert (Hseq : messages_seq (db w3) = messages_seq (db w) + 1).
  { rewrite D3, D2, Hw1. reflexivity. }
  assert (Hend : messages (db w') = messages (db w4) /\ sent w' = sent w4).
  { destruct (List.length history <=? 1)%nat; [|subst w'; auto].
    apply updateSessionTitle_resolved in H5 as (_ & _ & M5 & L5);
      [auto | pose proof (substring_0_length 50 message); lia]. }
  destruct Hend as [Mend Lend].
  rewrite Mend, Lend, M4, L4, L3, L2, L1, D3, D2, M1, <- app_assoc.
  rewrite Hreply, Hseq. simpl.
  repeat split; try reflexivity.
  - lia.
  - rewrite L2, L1 in Hanswer. exact Hanswer.
Qed.

(** X14. A turn on one session, whatever its outcome, stores at most two
    rows, all in that session and after the rows the table held; it
    leaves the order and content of every stored message, every other
    session's record and the users as they were. *)
Theorem chat_touches_one_session sessionId message w :
  let w' := snd (Api.chat env sessionId (Some message) w) in
  (exists added,
     messages (db w') = messages (db w) ++ added
     /\ Forall (fun x => m_session_id x = sessionId) added
     /\ (List.length added <= 2)%nat)
  /\ (forall other, other <> sessionId ->
        Db.of_session other (messages (db w')) = Db.of_session other (messages (db w)))
  /\ filter (fun s => negb (s_id s =? sessionId)) (sessions (db w'))
     = filter (fun s => negb (s_id s =? sessionId)) (sessions (db w))
  /\ map s_id (sessions (db w')) = map s_id (sessions (db w))
  /\ users (db w') = users (db w).
Proof.
  intros w'.
  destruct (chat_effect sessionId message w _ _ (surjective_pairing _))
    as (Hu & (added & Hm & Hall & Hlen) & Hs).
  fold w' in Hu, Hm, Hs.
  split; [exists added; auto|]. split; [|split; [|split; [|exact Hu]]].
  - intros other Hne. rewrite Hm. unfold Db.of_session. rewrite filter_app.
    replace (filter (fun m => m_session_id m =? other) added) with (@nil Message);
      [apply app_nil_r|].
    symmetry. clear Hm Hlen. induction Hall as [|x t Hx _ IH]; simpl; [reflexivity|].
    destruct (Z.eqb_spec (m_session_id x) other); [congruence | exact IH].
  - rewrite Hs. destruct (_ && _); [apply filter_set_title | reflexivity].
  - rewrite Hs. destruct (_ && _); [|reflexivity].
    apply map_set_title, set_title_id.
Qed.

(** X15. Clearing a session makes its next turn a first turn again: a
    turn that succeeds right after a successful clear sets the session's
    title to the first 50 characters of its message, whatever the title
    was. *)
Theorem chat_after_clear_retitles sessionId message w w1 reply w2 :
  Api.clear_messages env sessionId w = (Api.Success, w1) ->
  Api.chat env sessionId (Some message) w1 = (Api.ChatOk reply, w2) ->
  sessions (db w2)
  = map (Db.set_title sessionId (Js.substring_0 50 message)) (sessions (db w)).
Proof.
  intros Hclear Hchat.
  unfold Api.clear_messages, Api.try_catch, bind, Db.clearSessionMessages in Hclear.
  destruct (Db.sql env _ _ w) as [[[]|e] w0] eqn:E; [|discriminate].
  inversion Hclear; subst; clear Hclear.
  apply sql_resolved in E as (_ & _ & d & Hrun & ->).
  unfold Db.delete_messages in Hrun. inversion Hrun; subst; clear Hrun.
  apply chat_effect in Hchat as (_ & _ & Hs).
  rewrite Hs. unfold message_count. simpl.
  rewrite of_session_removed. reflexivity.
Qed.

(** X16. A first turn that stored the user's message and then lost the
    provider's answer leaves a session that the next turn does not
    title: whatever the next turn's message and outcome, the sessions
    are as they were before the failed turn. *)
Theorem chat_after_failed_turn_keeps_title
    sessionId message w saved w1 history w2 e w3 next :
  Js.truthy (Js.trim message) = true ->
  Db.saveMessage env sessionId RoleUser message w = (Resolved saved, w1) ->
  Db.getSessionMessages env sessionId w1 = (Resolved history, w2) ->
  Ai.generateAIResponse env message (Js.slice_0_m1 history) w2 = (Rejected e, w3) ->
  snd (Api.chat env sessionId (Some message) w) = w3
  /\ sessions (db (snd (Api.chat env sessionId (Some next) w3))) = sessions (db w).
Proof.
  intros Ht H1 H2 H3. split.
  - unfold Api.chat, Api.try_catch, bind.
    rewrite Ht. cbn [negb]. cbv beta iota. rewrite H1, H2, H3. reflexivity.
  - destruct (chat_effect sessionId next w3 _ _ (surjective_pairing _))
      as (_ & _ & Hs).
    rewrite Hs.
    apply saveMessage_resolved in H1 as (Hsaved & _ & _ & S1 & M1 & _).
    apply getSessionMessages_resolved in H2 as (_ & D2 & _).
    apply generateAIResponse_rejected in H3 as (_ & _ & D3 & _).
    assert (Hcount : message_count sessionId w3 = S (message_count sessionId w)).
    { unfold message_count, Db.of_session. rewrite D3, D2, M1.
      rewrite filter_app, length_app. simpl.
      rewrite Hsaved. simpl. rewrite Z.eqb_refl. simpl. lia. }
    rewrite Hcount. simpl. rewrite andb_false_r. congruence.
Qed.

End Turns.

(** ** Long runs *)

Section LongRuns.

Variable env : Env.

(** X17. Once a session has been deleted, its id is gone for good:
    whatever requests follow, no session carries that id again, the id
    owns no message, and every chat turn addressed to it is answered
    with a failure and stores nothing. *)
Theorem deleted_session_stays_gone (before after : list Request) sessionId w1 message :
  Db.references_session sessionId (db (serve env before boot)) = true ->
  Api.delete_session env sessionId (serve env before boot) = (Api.Success, w1) ->
  let w2 := serve env after w1 in
  Db.references_session sessionId (db w2) = false
  /\ message_count sessionId w2 = 0%nat
  /\ is_failure (fst (Api.chat env sessionId message w2)) = true
  /\ messages (db (snd (Api.chat env sessionId message w2))) = messages (db w2).
Proof.
  set (w := serve env before boot). intros Hexists Hdelete w2.
  assert (Hw1 : w1 = snd (handle env (DeleteSession sessionId) w))
    by (simpl; rewrite Hdelete; reflexivity).
  assert (Hpassed : sessionId <= sessions_seq (db w)).
  { pose proof (serve_preserves env keyed (keyed_stable env) before boot boot_keyed)
      as (_ & [_ Hbound] & _).
    fold w in Hbound. rewrite Forall_forall in Hbound.
    unfold Db.references_session in Hexists.
    apply existsb_exists in Hexists as (s & Hin & Hs). apply Z.eqb_eq in Hs.
    rewrite <- Hs. apply Hbound, in_map, Hin. }
  assert (Hretired : retired sessionId w1).
  { unfold Api.delete_session, Api.try_catch, bind, Db.deleteSession in Hdelete.
    destruct (Db.sql env _ _ w) as [[[]|e] w0] eqn:E; [|discriminate].
    inversion Hdelete; subst w0; clear Hdelete.
    apply sql_resolved in E as (_ & _ & d & Hrun & E1).
    unfold Db.delete_session in Hrun. inversion Hrun; subst d; clear Hrun.
    rewrite E1. split; [|exact Hpassed].
    unfold Db.references_session. simpl.
    apply not_true_is_false. intros Hx.
    apply existsb_exists in Hx as (s & Hin & Hs).
    apply filter_In in Hin as [_ Hne]. rewrite Hs in Hne. discriminate. }
  destruct (serve_preserves env _ (retired_stable env sessionId) after w1 Hretired)
    as [Hgone _].
  fold w2 in Hgone.
  assert (Hint : integrity (db w2) = true).
  { unfold w2. apply serve_integrity. rewrite Hw1.
    apply handle_integrity, serve_integrity, boot_integrity. }
  pose proof (no_messages_of_missing_session _ _ Hint Hgone) as Hnone.
  split; [exact Hgone|]. split.
  - unfold message_count, Db.of_session.
    destruct (filter_none _ _ Hnone) as [-> _]. reflexivity.
  - unfold Api.chat, Api.try_catch, bind.
    destruct message as [message|]; [|simpl; auto].
    destruct (negb (Js.truthy (Js.trim message))); [simpl; auto|].
    unfold Db.saveMessage, Db.sql.
    destruct (store_up env (tick w2)); simpl; [|auto].
    destruct (Db.int4 sessionId && Db.text message); simpl; [|auto].
    unfold Db.insert_message.
    destruct (Db.serial_max <=? messages_seq (db w2)); simpl; [auto|].
    rewrite Hgone. simpl. auto.
Qed.

Hypothesis clock_ticks : ticking env.

(** X18. With a clock that moves forward between statements, in every
    world the server reaches a chat turn whose append and read-back
    succeed sends the provider exactly: the system message, the messages
    the session held before the turn, in insertion order with their
    roles, and the new user message, once. *)
Theorem chat_prompt_in_served_worlds (rs : list Request)
    sessionId message saved w1 history w2 :
  let w := serve env rs boot in
  Js.truthy (Js.trim message) = true ->
  Db.saveMessage env sessionId RoleUser message w = (Resolved saved, w1) ->
  Db.getSessionMessages env sessionId w1 = (Resolved history, w2) ->
  sent (snd (Api.chat env sessionId (Some message) w))
  = sent w
    ++ [mkPrompt PromptSystem Ai.system_content
        :: map (fun p => mkPrompt (PromptOf (m_role p)) (m_content p))
               (Db.of_session sessionId (messages (db w)))
        ++ [mkPrompt (PromptOf RoleUser) message]].
Proof.
  intros w Ht H1 H2.
  rewrite (chat_sent env _ _ _ _ _ _ _ Ht H1 H2).
  assert (Htimed : timed env w1).
  { replace w1 with (snd (Db.saveMessage env sessionId RoleUser message w))
      by (rewrite H1; reflexivity).
    apply (saveMessage_preserves env _ (timed_stable env clock_ticks)).
    apply (serve_preserves env _ (timed_stable env clock_ticks)), boot_timed. }
  apply saveMessage_resolved in H1 as (Hsaved & _ & _ & _ & M1 & _).
  apply getSessionMessages_resolved in H2 as (Hh & _ & _).
  rewrite (timed_session_in_order env w1 _ _ Htimed) in Hh.
  rewrite M1 in Hh. unfold Db.of_session in Hh. rewrite filter_app in Hh.
  simpl in Hh.
  replace (m_session_id saved =? sessionId) with true in Hh
    by (rewrite Hsaved; simpl; symmetry; apply Z.eqb_refl).
  rewrite Hh. unfold Js.slice_0_m1. rewrite removelast_last. reflexivity.
Qed.

End LongRuns.

(* ================================================================== *)
(** ** Runs on which the further properties apply *)

Lemma fair_weather_ticks : ticking fair_weather.
Proof. intros n. unfold fair_weather. cbn [clock]. lia. Qed.

Lemma login_rejects_short_username_witness :
  Api.login fair_weather (Some " a ") boot
  = (Api.Failure "Username must be at least 2 characters", boot).
Proof.
  apply (login_rejects_short_username fair_weather (Some " a ") boot).
  vm_compute. repeat constructor.
Defined.

Lemma login_ignores_case_and_padding_witness :
  fst (Api.login fair_weather (Some " ALICE")
         (snd (Api.login fair_weather (Some "alice") boot)))
  = Api.LoginOk (mkUser 1 "alice" 1001).
Proof.
  rewrite (login_ignores_case_and_padding fair_weather "alice" " ALICE" boot
             (mkUser 1 "alice" 1001)
             (snd (Api.login fair_weather (Some "alice") boot)) eq_refl);
    [reflexivity | vm_compute; repeat constructor | reflexivity].
Defined.

Lemma login_answer_witness :
  users (db (snd (Api.login fair_weather (Some " Bob ") (new_session fair_weather))))
  = users (db (new_session fair_weather)) ++ [mkUser 2 "bob" 1004].
Proof.
  destruct (login_answer fair_weather " Bob " (new_session fair_weather)
              (mkUser 2 "bob" 1004)
              (snd (Api.login fair_weather (Some " Bob ") (new_session fair_weather)))
              eq_refl)
    as (_ & _ & [Hsame | [Hadded _]] & _).
  - discriminate Hsame.
  - exact Hadded.
Defined.

Lemma login_refuses_long_username_witness :
  fst (Api.login fair_weather
         (Some "abcdefghijklmnopqrstuvwxyzabcdefghijklmnopqrstuvwxyz")
         (serve fair_weather [PostLogin (Some "alice")] boot))
  = Api.Failure "Failed to login".
Proof.
  refine (proj1 (login_refuses_long_username fair_weather
                   [PostLogin (Some "alice")]
                   "abcdefghijklmnopqrstuvwxyzabcdefghijklmnopqrstuvwxyz" _)).
  vm_compute. repeat constructor.
Defined.

Lemma create_session_for_unknown_user_witness :
  fst (Api.create_session fair_weather (Some 5) None (new_session fair_weather))
  = Api.Failure "Failed to create session".
Proof.
  refine (proj1 (create_session_for_unknown_user_fails fair_weather 5 None
                   (new_session fair_weather) _)).
  reflexivity.
Defined.

Lemma sessions_listed_newest_first_witness :
  exists listed,
    fst (Api.list_sessions coarse_clock 1
           (serve coarse_clock [PostSession (Some 1) (Some "second")]
              (new_session coarse_clock)))
    = Api.SessionsOk listed
    /\ newest_first listed.
Proof.
  destruct (sessions_listed_newest_first coarse_clock 1
              (serve coarse_clock [PostSession (Some 1) (Some "second")]
                 (new_session coarse_clock)))
    as (listed & H & _ & Hn & _); [reflexivity | reflexivity |].
  exists listed. split; assumption.
Defined.

Lemma new_session_listed_first_witness :
  fst (Api.list_sessions fair_weather 1
         (snd (Api.create_session fair_weather (Some 1) (Some "second")
                 (serve fair_weather
                    [PostLogin (Some "alice"); PostSession (Some 1) None] boot))))
  = Api.SessionsOk [mkSession 2 (Some 1) "second" 1003;
                    mkSession 1 (Some 1) "New Chat" 1002].
Proof.
  rewrite (new_session_listed_first fair_weather fair_weather_ticks
             [PostLogin (Some "alice"); PostSession (Some 1) None]
             1 (Some "second") (mkSession 2 (Some 1) "second" 1003)
             (snd (Api.create_session fair_weather (Some 1) (Some "second")
                     (serve fair_weather
                        [PostLogin (Some "alice"); PostSession (Some 1) None] boot)))
             eq_refl eq_refl).
  reflexivity.
Defined.

Lemma clear_messages_witness :
  message_count 1 (snd (Api.clear_messages fair_weather 1 (after_hello fair_weather)))
  = 0%nat.
Proof.
  refine (proj1 (clear_messages_empties_one_session fair_weather 1
                   (after_hello fair_weather)
                   (snd (Api.clear_messages fair_weather 1 (after_hello fair_weather)))
                   eq_refl)).
Defined.

Lemma messages_listed_in_insertion_order_witness :
  fst (Api.list_messages fair_weather 1
         (serve fair_weather
            [PostLogin (Some "alice"); PostSession (Some 1) None;
             PostChat 1 (Some "Hello")] boot))
  = Api.MessagesOk [mkMessage 1 1 RoleUser "Hello" 1003;
                    mkMessage 2 1 RoleAssistant "Hi there" 1005].
Proof.
  rewrite (proj1 (messages_listed_in_insertion_order fair_weather fair_weather_ticks
                    [PostLogin (Some "alice"); PostSession (Some 1) None;
                     PostChat 1 (Some "Hello")] 1 eq_refl eq_refl)).
  reflexivity.
Defined.

Lemma chat_success_stores_exchange_witness :
  exists prompt,
    sent (snd (Api.chat fair_weather 1 (Some "Hello") (new_session fair_weather)))
    = sent (new_session fair_weather) ++ [prompt]
    /\ complete fair_weather 0 prompt = Some "Hi there".
Proof.
  destruct (chat_success_stores_exchange fair_weather 1 "Hello"
              (new_session fair_weather)
              (mkMessage 2 1 RoleAssistant "Hi there" 1005)
              (snd (Api.chat fair_weather 1 (Some "Hello") (new_session fair_weather)))
              eq_refl)
    as (prompt & _ & _ & _ & _ & Hsent & Hanswer).
  exists prompt. split; [exact Hsent | exact Hanswer].
Defined.

Lemma chat_after_clear_retitles_witness :
  map s_title
    (sessions (db (snd (Api.chat fair_weather 1 (Some "Again")
                          (snd (Api.clear_messages fair_weather 1
                                  (after_hello fair_weather)))))))
  = ["Again"].
Proof.
  rewrite (chat_after_clear_retitles fair_weather 1 "Again" (after_hello fair_weather)
             (snd (Api.clear_messages fair_weather 1 (after_hello fair_weather)))
             (mkMessage 4 1 RoleAssistant "Hi there" 1010)
             (snd (Api.chat fair_weather 1 (Some "Again")
                     (snd (Api.clear_messages fair_weather 1
                             (after_hello fair_weather)))))
             eq_refl eq_refl).
  reflexivity.
Defined.

Lemma chat_after_failed_turn_witness :
  map s_title
    (sessions (db (snd (Api.chat provider_down 1 (Some "Retry")
                          (snd (Api.chat provider_down 1 (Some "Hello")
                                  (new_session provider_down)))))))
  = ["New Chat"].
Proof.
  edestruct (chat_after_failed_turn_keeps_title provider_down 1 "Hello"
               (new_session provider_down)) as [Hw Hs];
    [ reflexivity | reflexivity | reflexivity | reflexivity | ].
  rewrite Hw, Hs. reflexivity.
Defined.

Lemma deleted_session_stays_gone_witness :
  is_failure
    (fst (Api.chat fair_weather 1 (Some "Hello")
            (serve fair_weather [PostSession (Some 1) None]
               (snd (Api.delete_session fair_weather 1
                       (serve fair_weather
                          [PostLogin (Some "alice"); PostSession (Some 1) None]
                          boot))))))
  = true.
Proof.
  refine (proj1 (proj2 (proj2
    (deleted_session_stays_gone fair_weather
       [PostLogin (Some "alice"); PostSession (Some 1) None]
       [PostSession (Some 1) None] 1
       (snd (Api.delete_session fair_weather 1
               (serve fair_weather
                  [PostLogin (Some "alice"); PostSession (Some 1) None] boot)))
       (Some "Hello") eq_refl eq_refl)))).
Defined.

Lemma chat_prompt_in_served_worlds_witness :
  sent (snd (Api.chat fair_weather 1 (Some "Bye")
               (serve fair_weather
                  [PostLogin (Some "alice"); PostSession (Some 1) None;
                   PostChat 1 (Some "Hello")] boot)))
  = [ [mkPrompt PromptSystem Ai.system_content;
       mkPrompt (PromptOf RoleUser) "Hello"];
      [mkPrompt PromptSystem Ai.system_content;
       mkPrompt (PromptOf RoleUser) "Hello";
       mkPrompt (PromptOf RoleAssistant) "Hi there";
       mkPrompt (PromptOf RoleUser) "Bye"] ].
Proof.
  erewrite (chat_prompt_in_served_worlds fair_weather fair_weather_ticks
              [PostLogin (Some "alice"); PostSession (Some 1) None;
               PostChat 1 (Some "Hello")] 1 "Bye");
    reflexivity.
Defined.
